(** * The ACME API client of automatoes (automatoes/acme.py)

    A shallow embedding of the two client classes [Acme] and [AcmeV2]: every
    method is a computation in a state-and-exception monad over a world that
    holds the client object, the dictionaries shared with the caller, the
    state of the certificate authority on the other end of the wire, and
    the log of the HTTP exchanges made so far.  The theorems at the end
    settle the statements of the specification about the protocol client. *)

From Stdlib Require Import Ascii.
From stdpp Require Import gmap strings list fin_maps pretty.

Set Warnings "-register-all".
Open Scope string_scope.
Open Scope Z_scope.
Open Scope list_scope.

(** ** Python values

    The values that travel through the client: JSON documents, payload
    dictionaries, header values, constructor arguments. *)

Inductive value :=
| VNone
| VBool (b : bool)
| VInt (z : Z)
| VStr (s : string)
| VList (l : list value)
| VDict (d : gmap string value).

Abbreviation dict := (gmap string value).

(** [bool(d)] of a dictionary: empty dictionaries are false. *)
Definition dict_truthy (d : dict) : bool := negb (bool_decide (size d = 0%nat)).

(** [bool(v)]. *)
Definition truthy (v : value) : bool :=
  match v with
  | VNone => false
  | VBool b => b
  | VInt z => negb (z =? 0)
  | VStr s => negb (String.eqb s "")
  | VList l => match l with [] => false | _ => true end
  | VDict d => dict_truthy d
  end.

(** The result of [mapping.get(key)] on a mapping of strings: the string or
    [None]. *)
Definition str_or_none (o : option string) : value :=
  match o with Some s => VStr s | None => VNone end.

(** [needle in hay] on two strings: substring test. *)
Fixpoint str_contains (needle hay : string) : bool :=
  String.prefix needle hay ||
  match hay with
  | EmptyString => false
  | String _ rest => str_contains needle rest
  end.

(** ** HTTP messages as the [requests] library shows them *)

Inductive http_method := GET | HEAD | POST.

(** One entry of [response.links]: the dictionary [requests] builds for a
    link of the [Link] header; it always has the key ['url'], so it is never
    empty. *)
Record Link := { link_url : string }.

(** A [requests.Response].  [headers] is keyed by the spelling the client
    uses for a header name (the library's dictionary ignores case); [links]
    is the library's parse of the [Link] header, keyed by relation; [json]
    is what [response.json()] yields, [None] when the body does not parse
    and the call raises [ValueError]. *)
Record Response := {
  status_code : Z;
  headers : gmap string string;
  links : gmap string Link;
  content : string;
  json : option value;
}.

(** The argument of an [AcmeError]. *)
Inductive error_arg :=
| ErrResponse (response : Response)   (* AcmeError(response) *)
| ErrInvalidJSON                      (* AcmeError("Invalid JSON response. ...") *)
| ErrWrapped.                         (* AcmeError(e), e raised by response.json() *)

(** The exceptions a call can end with. *)
Inductive exn :=
| AcmeError (arg : error_arg)
| AccountAlreadyExistsError (response : Response) (existing_uri : option string)
| AttributeError
| KeyError (k : string)
| TypeError
| ValueError
| RequestException (what : string).   (* raised by the transport *)

(** ** What the client takes from outside this module *)

(** The signing module [automatoes.crypto], of which the client uses
    [generate_header], [sign_request] and [sign_request_v2]: a key type and
    the JWS header derived from a key are taken as given here, the two
    signing functions are kept symbolic below. *)
Class Crypto := {
  Key : Type;
  generate_header : Key -> dict;
}.

(** The version of the package ([automatoes.get_version]) and the two
    functions of [urllib.parse]; [None] stands for the [ValueError] they
    raise on a malformed URL. *)
Class Library := {
  get_version : string;
  urlparse_path : string -> option string;      (* urlparse(s).path *)
  urljoin : string -> string -> option string;
}.

Section Client.
Context `{Crypto} `{Library}.

(** The body of a signed request, kept as the call that produced it, so that
    what went under each signature can be read back from a request. *)
Inductive signed :=
| sign_request (k : Key) (header protected body : dict)
| sign_request_v2 (k : Key) (protected body : dict).

Record Request := {
  method : http_method;
  target : string;
  req_headers : dict;
  data : option signed;
  req_verify : option value;   (* the [verify] keyword, when passed *)
}.

(** The certificate authority (and the network in front of it): a state and
    what one request does to it. *)
Class Transport := {
  Server : Type;
  requests_request : Server -> Request -> (exn + Response) * Server;
}.

Context `{Transport}.

(** ** The objects *)

Record Account := { key : Key; uri : option string }.

Inductive cls := Acme | AcmeV2.

(** The client object [self]; [account] is the caller's account record,
    which the client holds by reference, or [None]. *)
Record client := {
  class_of : cls;
  url : string;
  account : option Account;
  directory : string;
  verify : value;
}.

Definition exchange : Type := Request * (exn + Response).

Record World := {
  self : client;
  heap : gmap positive dict;       (* dictionaries created by the caller or the client *)
  net : Server;
  log : list exchange;             (* exchanges so far, oldest first *)
}.

(** ** The monad *)

Definition M (A : Type) : Type := World -> (exn + A) * World.

Definition ret {A} (a : A) : M A := fun w => (inr a, w).
Definition raise {A} (e : exn) : M A := fun w => (inl e, w).
Definition bind {A B} (m : M A) (k : A -> M B) : M B :=
  fun w => match m w with
           | (inr a, w') => k a w'
           | (inl e, w') => (inl e, w')
           end.
Definition lift {A} (r : exn + A) : M A := fun w => (r, w).

Notation "x <- m ;; k" := (bind m (fun x => k))
  (at level 100, m at next level, right associativity).
Notation "m ;;; k" := (bind m (fun _ => k))
  (at level 100, right associativity).

Definition get_self : M client := fun w => (inr (self w), w).

(** [self.account.<attr>]: reading an attribute of [None] raises. *)
Definition self_account : M Account :=
  fun w => match account (self w) with
           | Some a => (inr a, w)
           | None => (inl AttributeError, w)
           end.

(** [self.account.uri = uri]. *)
Definition set_account_uri (u : option string) : M unit :=
  fun w => match account (self w) with
           | Some a =>
               (inr tt,
                {| self := {| class_of := class_of (self w); url := url (self w);
                              account := Some {| key := key a; uri := u |};
                              directory := directory (self w);
                              verify := verify (self w) |};
                   heap := heap w; net := net w; log := log w |})
           | None => (inl AttributeError, w)
           end.

(** One call into [requests]: the server answers and the exchange is
    logged. *)
Definition send (rq : Request) : M Response :=
  fun w => let '(res, s) := requests_request (net w) rq in
           (res, {| self := self w; heap := heap w; net := s;
                    log := log w ++ [(rq, res)] |}).

(** Dictionaries on the heap. *)
Definition deref (l : positive) : M dict :=
  fun w => (inr (default ∅ (heap w !! l)), w).

Definition alloc (d : dict) : M positive :=
  fun w => let l := fresh (dom (heap w)) in
           (inr l, {| self := self w; heap := <[l := d]> (heap w);
                      net := net w; log := log w |}).

(** [d[k] = v] on the dictionary at [l]. *)
Definition setitem (l : positive) (k : string) (v : value) : M unit :=
  fun w => (inr tt, {| self := self w;
                       heap := <[l := <[k := v]> (default ∅ (heap w !! l))]> (heap w);
                       net := net w; log := log w |}).

(** ** Small pieces of Python the methods use *)

(** The module constant [DEFAULT_HEADERS]. *)
Definition DEFAULT_HEADERS : dict :=
  {[ "User-Agent" :=
       VStr ("automatoes " +:+ get_version +:+ " (https://candango.org/p/automatoes)") ]}.

(** [if headers: _headers.update(headers)]: the caller's values win. *)
Definition update (hdrs : option dict) (_headers : dict) : dict :=
  match hdrs with
  | Some h => if dict_truthy h then h ∪ _headers else _headers
  | None => _headers
  end.

(** [if self.verify: kwargs['verify'] = self.verify]. *)
Definition verify_kwarg (c : client) : option value :=
  if truthy (verify c) then Some (verify c) else None.

(** [str(n).startswith("2")]. *)
Definition starts_with_2 (n : Z) : bool := String.prefix "2" (pretty n).

(** [response.json()], which raises [ValueError] on a body that is not
    JSON. *)
Definition response_json (response : Response) : M value :=
  match json response with
  | Some j => ret j
  | None => raise ValueError
  end.

(** [v[k]] for a string [k]: only a dictionary can be indexed by a string. *)
Definition getitem (v : value) (k : string) : M value :=
  match v with
  | VDict d => match d !! k with
               | Some x => ret x
               | None => raise (KeyError k)
               end
  | _ => raise TypeError
  end.

(** [k in v] for a string [k]: a key of a dictionary, an element of a list,
    a substring of a string; other values are not iterable. *)
Definition contains (k : string) (v : value) : M bool :=
  match v with
  | VDict d => ret (bool_decide (is_Some (d !! k)))
  | VList l => ret (existsb (fun x => match x with
                                      | VStr s => String.eqb s k
                                      | _ => false
                                      end) l)
  | VStr s => ret (str_contains k s)
  | _ => raise TypeError
  end.

(** The module function [_json]. *)
Definition _json (response : Response) : M value :=
  match json response with
  | Some j => ret j
  | None => raise (AcmeError ErrInvalidJSON)
  end.

(** ** Transport methods *)

(** [Acme.path]: an absolute URL is cut down to its path, then the path is
    joined to the base URL.  Only a string has [startswith]. *)
Definition path (c : client) (p : value) : exn + string :=
  match p with
  | VStr s =>
      match (if String.prefix "http" s then urlparse_path s else Some s) with
      | Some s' => match urljoin (url c) s' with
                   | Some t => inr t
                   | None => inl ValueError
                   end
      | None => inl ValueError
      end
  | _ => inl AttributeError
  end.

(** [Acme.get]. *)
Definition get (p : value) (hdrs : option dict) : M Response :=
  let _headers := update hdrs DEFAULT_HEADERS in
  c <- get_self;;
  t <- lift (path c p);;
  send {| method := GET; target := t; req_headers := _headers;
          data := None; req_verify := verify_kwarg c |}.

(** [AcmeV2.head]. *)
Definition head (p : value) (hdrs : option dict) : M Response :=
  let _headers := update hdrs DEFAULT_HEADERS in
  c <- get_self;;
  t <- lift (path c p);;
  send {| method := HEAD; target := t; req_headers := _headers;
          data := None; req_verify := verify_kwarg c |}.

(** The module-level [requests.get(url, headers=...)], which goes to [url]
    as it is. *)
Definition requests_get (u : string) (hdrs : dict) : M Response :=
  send {| method := GET; target := u; req_headers := hdrs;
          data := None; req_verify := None |}.

(** ** Directory and nonce

    A method that one class alone can run calls the other methods of [self]
    as that class defines them: the methods [AcmeV2] adds or overrides run on
    [AcmeV2] objects, and the methods of [Acme] that [AcmeV2] overrides run on
    [Acme] objects, since [AcmeV2] never calls up to them.  A method both
    classes share resolves its calls on [self] by the class of the object. *)

Definition Acme_get_directory : M Response := get (VStr "/directory") None.

Definition AcmeV2_get_directory : M Response :=
  c <- get_self;;
  get (VStr ("/" +:+ directory c)) None.

(** [self.get_directory()], resolved by the class of [self]. *)
Definition get_directory : M Response :=
  c <- get_self;;
  match class_of c with
  | Acme => Acme_get_directory
  | AcmeV2 => AcmeV2_get_directory
  end.

(** [AcmeV2.url_from_directory]. *)
Definition url_from_directory (what_url : string) : M value :=
  response <- AcmeV2_get_directory;;
  if status_code response =? 200 then
    j <- response_json response;;
    getitem j what_url
  else ret VNone.

(** [AcmeV2.terms_from_directory]. *)
Definition terms_from_directory : M value :=
  response <- AcmeV2_get_directory;;
  if status_code response =? 200 then
    j <- response_json response;;
    has_meta <- contains "meta" j;;
    if has_meta : bool then
      j <- response_json response;;
      meta <- getitem j "meta";;
      has_terms <- contains "termsOfService" meta;;
      if has_terms : bool then
        j <- response_json response;;
        meta <- getitem j "meta";;
        getitem meta "termsOfService"
      else ret VNone
    else ret VNone
  else ret VNone.

Definition Acme_get_nonce : M value :=
  response <- get (VStr "/directory") None;;
  ret (str_or_none (headers response !! "Replay-Nonce")).

Definition AcmeV2_get_nonce : M value :=
  u <- url_from_directory "newNonce";;
  response <- head u (Some {[ "resource" := VStr "new-reg"; "payload" := VNone ]});;
  ret (str_or_none (headers response !! "Replay-Nonce")).

(** [self.get_nonce()], resolved by the class of [self]. *)
Definition get_nonce : M value :=
  c <- get_self;;
  match class_of c with
  | Acme => Acme_get_nonce
  | AcmeV2 => AcmeV2_get_nonce
  end.

(** ** Signed requests *)

(** [Acme.get_headers]: the header and its copy with the fresh nonce. *)
Definition Acme_get_headers : M (dict * dict) :=
  a <- self_account;;
  let header := generate_header (key a) in
  let protected_header := header in
  n <- Acme_get_nonce;;
  ret (header, <["nonce" := n]> protected_header).

(** [AcmeV2.get_headers]. *)
Definition AcmeV2_get_headers (u : option string) : M dict :=
  a <- self_account;;
  let header := generate_header (key a) in
  let protected_header := header in
  n <- AcmeV2_get_nonce;;
  let protected_header := <["nonce" := n]> protected_header in
  ret (match u with
       | Some u => <["url" := VStr u]> protected_header
       | None => protected_header
       end).

(** [Acme.post]. *)
Definition Acme_post (p : value) (body : dict) (hdrs : option dict) : M Response :=
  let _headers := update hdrs (<["Content-Type" := VStr "application/json"]> DEFAULT_HEADERS) in
  hp <- Acme_get_headers;;
  a <- self_account;;
  let body := sign_request (key a) (fst hp) (snd hp) body in
  c <- get_self;;
  t <- lift (path c p);;
  send {| method := POST; target := t; req_headers := _headers;
          data := Some body; req_verify := verify_kwarg c |}.

(** [AcmeV2.post]. *)
Definition AcmeV2_post (p : value) (body : dict) (hdrs : option dict) : M Response :=
  let _headers := update hdrs (<["Content-Type" := VStr "application/jose+json"]> DEFAULT_HEADERS) in
  c <- get_self;;
  u <- lift (path c p);;
  protected <- AcmeV2_get_headers (Some u);;
  a <- self_account;;
  let body := sign_request_v2 (key a) protected body in
  c <- get_self;;
  t <- lift (path c p);;
  send {| method := POST; target := t; req_headers := _headers;
          data := Some body; req_verify := verify_kwarg c |}.

(** [self.post(...)], resolved by the class of [self]. *)
Definition post (p : value) (body : dict) (hdrs : option dict) : M Response :=
  c <- get_self;;
  match class_of c with
  | Acme => Acme_post p body hdrs
  | AcmeV2 => AcmeV2_post p body hdrs
  end.

(** ** The operations of the client *)

Record RegistrationResult := {
  contents : value;
  reg_uri : option string;
  terms : value;
}.

Record NewAuthorizationResult := {
  authz_contents : value;
  authz_uri : option string;
}.

Record IssuanceResult := {
  certificate : string;
  location : option string;
  intermediate : option string;
}.

(** [Acme.register]. *)
Definition Acme_register (email : string) : M RegistrationResult :=
  response <- Acme_post (VStr "/acme/new-reg")
                {[ "resource" := VStr "new-reg";
                   "contact" := VList [VStr ("mailto:" +:+ email)] ]} None;;
  let uri := headers response !! "Location" in
  if status_code response =? 201 then
    set_account_uri uri;;;
    let terms := links response !! "terms-of-service" in
    contents <- _json response;;
    ret {| contents := contents; reg_uri := uri;
           terms := str_or_none (link_url <$> terms) |}
  else if status_code response =? 409 then
    raise (AccountAlreadyExistsError response uri)
  else raise (AcmeError (ErrResponse response)).

(** [AcmeV2.register]. *)
Definition AcmeV2_register (email : string) : M RegistrationResult :=
  let payload : dict :=
    {[ "termsOfServiceAgreed" := VBool true;
       "contact" := VList [VStr ("mailto:" +:+ email)] ]} in
  u <- url_from_directory "newAccount";;
  response <- AcmeV2_post u payload None;;
  let uri := headers response !! "Location" in
  if status_code response =? 201 then
    set_account_uri uri;;;
    terms <- terms_from_directory;;
    contents <- _json response;;
    ret {| contents := contents; reg_uri := uri; terms := terms |}
  else if status_code response =? 409 then
    raise (AccountAlreadyExistsError response uri)
  else raise (AcmeError (ErrResponse response)).

(** [self.register(email)], resolved by the class of [self]. *)
Definition register (email : string) : M RegistrationResult :=
  c <- get_self;;
  match class_of c with
  | Acme => Acme_register email
  | AcmeV2 => AcmeV2_register email
  end.

(** [Acme.get_registration]. *)
Definition get_registration : M value :=
  a <- self_account;;
  response <- post (str_or_none (uri a)) {[ "resource" := VStr "reg" ]} None;;
  if starts_with_2 (status_code response) then _json response
  else raise (AcmeError (ErrResponse response)).

(** [Acme.update_registration].  [params] is [None] or a reference to the
    caller's dictionary; [params or {}] keeps that dictionary when it is
    true and makes a new one otherwise. *)
Definition update_registration (params : option positive) : M bool :=
  params <- match params with
            | Some l =>
                d <- deref l;;
                if dict_truthy d then ret l else alloc ∅
            | None => alloc ∅
            end;;
  setitem params "resource" (VStr "reg");;;
  a <- self_account;;
  body <- deref params;;
  response <- post (str_or_none (uri a)) body None;;
  if starts_with_2 (status_code response) then ret true
  else raise (AcmeError (ErrResponse response)).

(** [Acme.new_authorization]. *)
Definition new_authorization (domain : string) : M NewAuthorizationResult :=
  response <- post (VStr "/acme/new-authz")
                {[ "resource" := VStr "new-authz";
                   "identifier" := VDict {[ "type" := VStr "dns";
                                            "value" := VStr domain ]} ]} None;;
  if status_code response =? 201 then
    contents <- _json response;;
    ret {| authz_contents := contents;
           authz_uri := headers response !! "Location" |}
  else raise (AcmeError (ErrResponse response)).

(** [Acme.validate_authorization]. *)
Definition validate_authorization (uri _type key_authorization : string) : M bool :=
  response <- post (VStr uri)
                {[ "resource" := VStr "challenge";
                   "type" := VStr _type;
                   "keyAuthorization" := VStr key_authorization ]} None;;
  if starts_with_2 (status_code response) then ret true
  else raise (AcmeError (ErrResponse response)).

(** [Acme.get_authorization]. *)
Definition get_authorization (uri : string) : M value :=
  response <- get (VStr uri) None;;
  match json response with
  | Some j => ret j
  | None => raise (AcmeError ErrWrapped)
  end.

(** [Acme.issue_certificate]. *)
Definition issue_certificate (csr : value) : M IssuanceResult :=
  let http_headers : dict := {[ "Accept" := VStr "application/pkix-cert" ]} in
  response <- post (VStr "/acme/new-cert")
                {[ "resource" := VStr "new-cert"; "csr" := csr ]}
                (Some http_headers);;
  if status_code response =? 201 then
    chain <- match links response !! "up" with
             | Some chain =>
                 issuer <- requests_get (link_url chain) DEFAULT_HEADERS;;
                 ret (Some (content issuer))
             | None => ret None
             end;;
    ret {| certificate := content response;
           location := headers response !! "Location";
           intermediate := chain |}
  else raise (AcmeError (ErrResponse response)).

(** [Acme.revoke_certificate]. *)
Definition revoke_certificate (cert : value) : M bool :=
  response <- post (VStr "/acme/revoke-cert")
                {[ "resource" := VStr "revoke-cert"; "certificate" := cert ]} None;;
  if status_code response =? 200 then ret true
  else raise (AcmeError (ErrResponse response)).

(** ** Sequences of calls *)

(** The calls a caller can make on the client. *)
Inductive operation :=
| Register (email : string)
| GetRegistration
| UpdateRegistration (params : option positive)
| NewAuthorization (domain : string)
| ValidateAuthorization (uri _type key_authorization : string)
| GetAuthorization (uri : string)
| IssueCertificate (csr : value)
| RevokeCertificate (cert : value).

(** One call, its result dropped. *)
Definition perform (op : operation) : M unit :=
  match op with
  | Register email => register email;;; ret tt
  | GetRegistration => get_registration;;; ret tt
  | UpdateRegistration params => update_registration params;;; ret tt
  | NewAuthorization domain => new_authorization domain;;; ret tt
  | ValidateAuthorization uri _type ka => validate_authorization uri _type ka;;; ret tt
  | GetAuthorization uri => get_authorization uri;;; ret tt
  | IssueCertificate csr => issue_certificate csr;;; ret tt
  | RevokeCertificate cert => revoke_certificate cert;;; ret tt
  end.

(** A caller making the calls one after the other, going on after a call
    that raised. *)
Fixpoint run (ops : list operation) (w : World) : World :=
  match ops with
  | [] => w
  | op :: ops => run ops (snd (perform op w))
  end.

End Client.

Notation "x <- m ;; k" := (bind m (fun x => k))
  (at level 100, m at next level, right associativity).
Notation "m ;;; k" := (bind m (fun _ => k))
  (at level 100, right associativity).

(** ** What is observed of a run *)

Section Observations.
Context `{Crypto} `{Library} `{!Transport}.

(** A computation keeps a relation between the world it starts in and the
    world it ends in, however it ends. *)
Definition keeps {A} (R : relation World) (m : M A) : Prop :=
  forall w, R w (snd (m w)).

(** The client object and the dictionaries are as they were. *)
Definition same_objects : relation World :=
  fun w w' => self w' = self w /\ heap w' = heap w.

(** The client object is as it was. *)
Definition same_self : relation World :=
  fun w w' => self w' = self w.

(** The dictionaries are as they were. *)
Definition same_heap : relation World :=
  fun w w' => heap w' = heap w.

Definition is_post (x : exchange) : bool :=
  match method (fst x) with POST => true | _ => false end.

(** A stretch of the log without a POST. *)
Definition quiet (l : list exchange) : Prop :=
  Forall (fun x => is_post x = false) l.

(** The log has grown by exchanges that are not POSTs. *)
Definition extends_quietly : relation World :=
  fun w w' => exists l, log w' = log w ++ l /\ quiet l.

(** The protected header that went under the signature of a request. *)
Definition protected_of (rq : Request) : option dict :=
  match data rq with
  | Some (sign_request _ _ protected _) => Some protected
  | Some (sign_request_v2 _ protected _) => Some protected
  | None => None
  end.

(** The nonce a signed request carries. *)
Definition nonce_of (rq : Request) : option value :=
  match protected_of rq with
  | Some protected => protected !! "nonce"
  | None => None
  end.

(** The token an answered exchange hands out: what [get_nonce] reads off
    its response. *)
Definition issued (x : exchange) : option value :=
  match snd x with
  | inr response => Some (str_or_none (headers response !! "Replay-Nonce"))
  | inl _ => None
  end.

(** The exchange [y] is a fetch, not a POST, and the signed request of [x]
    carries the token it handed out. *)
Definition supplies (y x : exchange) : Prop :=
  is_post y = false /\
  exists n, issued y = Some n /\ nonce_of (fst x) = Some n.

(** Every POST of the log comes right after the fetch that supplied its
    nonce. *)
Definition fresh_nonces (l : list exchange) : Prop :=
  forall i x, l !! i = Some x -> is_post x = true ->
    exists j y, i = S j /\ l !! j = Some y /\ supplies y x.

Definition keeps_fresh : relation World :=
  fun w w' => fresh_nonces (log w) -> fresh_nonces (log w').

(** What one signed request adds to the log: fetches, the last of which
    supplies the nonce, then the POST with its outcome. *)
Definition signed_exchange (l : list exchange) (res : exn + Response) : Prop :=
  exists l0 y rq,
    l = l0 ++ [y; (rq, res)] /\ quiet (l0 ++ [y]) /\
    method rq = POST /\ supplies y (rq, res).

(** A nonce that was obtained is the token of the last exchange made for
    it, and no POST was made on the way. *)
Definition fetched (w : World) (n : value) (w1 : World) : Prop :=
  exists l0 y, log w1 = log w ++ l0 ++ [y] /\ quiet (l0 ++ [y]) /\
               issued y = Some n.

(** What a call of [post] adds to the log: fetches only when it raises
    before the request goes out, a signed exchange otherwise. *)
Definition posted (w : World) (res : exn + Response) (w1 : World) : Prop :=
  exists l, log w1 = log w ++ l /\
            ((quiet l /\ exists e, res = inl e) \/ signed_exchange l res).

(** The payload that went under the signature of a request. *)
Definition payload_of (rq : Request) : option dict :=
  match data rq with
  | Some (sign_request _ _ _ body) => Some body
  | Some (sign_request_v2 _ _ body) => Some body
  | None => None
  end.

(** The nonces of the signed requests of a log, oldest first. *)
Definition nonces_sent (l : list exchange) : list (option value) :=
  map (fun x => nonce_of (fst x)) (List.filter is_post l).

(** The server answered the registration request that [register email]
    makes from the world [w], and the answer was [r]. *)
Definition registration_answered (email : string) (w : World) (r : Response) : Prop :=
  match class_of (self w) with
  | Acme =>
      exists w1,
        Acme_post (VStr "/acme/new-reg")
          {[ "resource" := VStr "new-reg";
             "contact" := VList [VStr ("mailto:" +:+ email)] ]} None w = (inr r, w1)
  | AcmeV2 =>
      exists u w0 w1,
        url_from_directory "newAccount" w = (inr u, w0) /\
        AcmeV2_post u
          {[ "termsOfServiceAgreed" := VBool true;
             "contact" := VList [VStr ("mailto:" +:+ email)] ]} None w0 = (inr r, w1)
  end.

End Observations.

(** ** The rest of the client object, and what goes out on the wire *)

Section Requests.
Context `{Crypto} `{Library} `{!Transport}.

(** [Acme.__init__], which [AcmeV2] inherits: the fields are stored, the
    account through [set_account]. *)
Definition init (c : cls) (url : string) (account : option Account)
    (directory : string) (verify : value) : client :=
  {| class_of := c; url := url; account := account;
     directory := directory; verify := verify |}.

(** [Acme.set_account]. *)
Definition set_account (account : option Account) : M unit :=
  fun w => (inr tt,
            {| self := init (class_of (self w)) (url (self w)) account
                         (directory (self w)) (verify (self w));
               heap := heap w; net := net w; log := log w |}).

(** The property [Acme.key]. *)
Definition Acme_key : M (option Key) :=
  c <- get_self;;
  match account c with
  | None => ret None
  | Some a => ret (Some (key a))
  end.

(** What no method of the client writes: the class, the base URL, the
    directory path, the [verify] setting and the key of the account. *)
Definition same_settings (c c' : client) : Prop :=
  class_of c' = class_of c /\ url c' = url c /\ directory c' = directory c /\
  verify c' = verify c /\ key <$> account c' = key <$> account c.

(** Run from a world whose client has the settings of [c0], the computation
    keeps these settings, every request it sends has the property [P], and a
    value it returns has the property [Q]. *)
Definition emits (c0 : client) (P : Request -> Prop) {A} (m : M A)
    (Q : A -> Prop) : Prop :=
  forall w, same_settings c0 (self w) ->
    same_settings c0 (self (snd (m w))) /\
    (exists l, log (snd (m w)) = log w ++ l /\ Forall (fun x => P (fst x)) l) /\
    (forall a, fst (m w) = inr a -> Q a).

(** The headers the client passes to [post] on its own account: none, or
    the [Accept] header of [issue_certificate]. *)
Definition own_headers (hdrs : option dict) : Prop :=
  hdrs = None \/ hdrs = Some {[ "Accept" := VStr "application/pkix-cert" ]}.

(** The request [Acme.get] makes for a resolved target. *)
Definition get_request (c : client) (t : string) : Request :=
  {| method := GET; target := t; req_headers := DEFAULT_HEADERS;
     data := None; req_verify := verify_kwarg c |}.

(** The request [AcmeV2.get_nonce] makes for a resolved target. *)
Definition nonce_request (c : client) (t : string) : Request :=
  {| method := HEAD; target := t;
     req_headers := update (Some {[ "resource" := VStr "new-reg";
                                    "payload" := VNone ]}) DEFAULT_HEADERS;
     data := None; req_verify := verify_kwarg c |}.

(** The request [issue_certificate] makes for the issuer chain. *)
Definition chain_request (u : string) : Request :=
  {| method := GET; target := u; req_headers := DEFAULT_HEADERS;
     data := None; req_verify := None |}.

(** The request [Acme.post] makes, for the key [k] and the nonce [n]. *)
Definition v1_request (c : client) (k : Key) (t : string) (hdrs : option dict)
    (body : dict) (n : value) : Request :=
  {| method := POST; target := t;
     req_headers := update hdrs (<["Content-Type" := VStr "application/json"]>
                                   DEFAULT_HEADERS);
     data := Some (sign_request k (generate_header k)
                     (<["nonce" := n]> (generate_header k)) body);
     req_verify := verify_kwarg c |}.

(** The request [AcmeV2.post] makes, for the key [k] and the nonce [n]. *)
Definition v2_request (c : client) (k : Key) (t : string) (hdrs : option dict)
    (body : dict) (n : value) : Request :=
  {| method := POST; target := t;
     req_headers := update hdrs (<["Content-Type" := VStr "application/jose+json"]>
                                   DEFAULT_HEADERS);
     data := Some (sign_request_v2 k
                     (<["url" := VStr t]> (<["nonce" := n]> (generate_header k)))
                     body);
     req_verify := verify_kwarg c |}.

(** The requests the client can make at all, with the settings of [c]. *)
Inductive client_request (c : client) : Request -> Prop :=
| req_get p t :
    path c p = inr t -> client_request c (get_request c t)
| req_nonce p t :
    path c p = inr t -> client_request c (nonce_request c t)
| req_chain u :
    client_request c (chain_request u)
| req_v1 k p t hdrs body n :
    class_of c = Acme -> key <$> account c = Some k -> path c p = inr t ->
    own_headers hdrs -> client_request c (v1_request c k t hdrs body n)
| req_v2 k p t hdrs body n :
    class_of c = AcmeV2 -> key <$> account c = Some k -> path c p = inr t ->
    own_headers hdrs -> client_request c (v2_request c k t hdrs body n).

(** The status codes of HTTP responses have three digits. *)
Definition three_digits (n : Z) : Prop := 100 <= n <= 999.

(** [str(n).startswith("2")] agrees with "200 to 299" on [lo], [lo+1], ...
    ([count] codes). *)
Definition agree_from (lo : Z) (count : nat) : bool :=
  forallb (fun n => Bool.eqb (starts_with_2 n) ((200 <=? n) && (n <? 300)))
          (seqZ lo (Z.of_nat count)).

End Requests.

(** ** A sample environment

    Concrete keys, URL functions and a scripted server, to run the client
    on. *)

Module Sample.

(** Keys are named; the header carries the name. *)
#[export] Instance crypto : Crypto := {|
  Key := string;
  generate_header := fun k => {[ "alg" := VStr "RS256"; "jwk" := VStr k ]};
|}.

Definition is_char (c : ascii) : ascii -> bool := fun x => Ascii.eqb x c.

Definition is_any (cs : list ascii) : ascii -> bool :=
  fun x => existsb (Ascii.eqb x) cs.

Fixpoint take_until (stop : ascii -> bool) (s : string) : string :=
  match s with
  | EmptyString => EmptyString
  | String c rest => if stop c then EmptyString else String c (take_until stop rest)
  end.

Fixpoint drop_until (stop : ascii -> bool) (s : string) : string :=
  match s with
  | EmptyString => EmptyString
  | String c rest => if stop c then s else drop_until stop rest
  end.

Definition tail (s : string) : string :=
  match s with EmptyString => EmptyString | String _ rest => rest end.

Definition is_alpha (c : ascii) : bool :=
  let n := nat_of_ascii c in
  ((65 <=? n) && (n <=? 90))%nat || ((97 <=? n) && (n <=? 122))%nat.

Definition is_scheme_char (c : ascii) : bool :=
  let n := nat_of_ascii c in
  is_alpha c || ((48 <=? n) && (n <=? 57))%nat || is_any ["+"; "-"; "."]%char c.

Fixpoint all_chars (p : ascii -> bool) (s : string) : bool :=
  match s with
  | EmptyString => true
  | String c rest => p c && all_chars p rest
  end.

(** The scheme of a URL with its colon, and what follows it. *)
Definition split_scheme (s : string) : string * string :=
  let pre := take_until (is_char ":") s in
  let post := drop_until (is_char ":") s in
  match pre, post with
  | String c _, String _ rest =>
      if is_alpha c && all_chars is_scheme_char pre
      then (pre +:+ ":", rest) else (EmptyString, s)
  | _, _ => (EmptyString, s)
  end.

(** The [//host:port] part, and what follows it. *)
Definition split_netloc (s : string) : string * string :=
  if String.prefix "//" s then
    let rest := tail (tail s) in
    let stop := is_any ["/"; "?"; "#"]%char in
    ("//" +:+ take_until stop rest, drop_until stop rest)
  else (EmptyString, s).

(** [urlparse(s).path] for a URL without path parameters: scheme, network
    location, fragment and query are cut off. *)
Definition sample_urlparse_path (s : string) : option string :=
  let rest := snd (split_netloc (snd (split_scheme s))) in
  Some (take_until (is_char "?") (take_until (is_char "#") rest)).

(** [urljoin(base, ref)] for a reference that is empty or an absolute
    path; the sample goes no further and answers any other reference as it
    would a malformed one. *)
Definition sample_urljoin (base ref : string) : option string :=
  match ref with
  | EmptyString => Some base
  | String "/" _ =>
      let '(scheme, rest) := split_scheme base in
      Some (scheme +:+ fst (split_netloc rest) +:+ ref)
  | _ => None
  end.

#[export] Instance library : Library := {|
  get_version := "0.9.1";
  urlparse_path := sample_urlparse_path;
  urljoin := sample_urljoin;
|}.

(** A server that plays a script: the next answer of the list, whatever the
    request; once the script is over the connection fails. *)
#[export] Instance scripted : Transport := {|
  Server := list (exn + Response);
  requests_request := fun s _ =>
    match s with
    | r :: s => (r, s)
    | [] => (inl (RequestException "connection refused"), [])
    end;
|}.

Definition alice : Account := {| key := "alice-key"; uri := None |}.

(** A client of either class for the base URL [https://ca.example/]. *)
Definition new_client (c : cls) (a : option Account) : client :=
  {| class_of := c; url := "https://ca.example/"; account := a;
     directory := "directory"; verify := VNone |}.

Definition world (c : cls) (a : option Account) (script : list (exn + Response)) : World :=
  {| self := new_client c a; heap := ∅; net := script; log := [] |}.

(** The answers of a certificate authority. *)

(** The directory of a v1 server, with a nonce in the headers. *)
Definition directory_v1 (nonce : string) : Response :=
  {| status_code := 200; headers := {[ "Replay-Nonce" := nonce ]}; links := ∅;
     content := "{}"; json := Some (VDict ∅) |}.

(** The directory of a v2 server. *)
Definition directory_v2 : Response :=
  {| status_code := 200; headers := ∅; links := ∅; content := "(directory)";
     json := Some (VDict
       {[ "newNonce" := VStr "https://ca.example/acme/new-nonce";
          "newAccount" := VStr "https://ca.example/acme/new-acct";
          "newAuthz" := VStr "https://ca.example/acme/v2/new-authz";
          "meta" := VDict {[ "termsOfService" :=
                               VStr "https://ca.example/terms" ]} ]}) |}.

(** The answer to HEAD on the nonce endpoint of a v2 server. *)
Definition new_nonce (nonce : string) : Response :=
  {| status_code := 200; headers := {[ "Replay-Nonce" := nonce ]}; links := ∅;
     content := ""; json := None |}.

(** An answer without the [Replay-Nonce] header. *)
Definition no_nonce : Response :=
  {| status_code := 200; headers := ∅; links := ∅;
     content := "{}"; json := Some (VDict ∅) |}.

Definition created_response : Response :=
  {| status_code := 201;
     headers := {[ "Location" := "https://ca.example/acme/reg/1" ]};
     links := {[ "terms-of-service" := {| link_url := "https://ca.example/terms" |} ]};
     content := "{}"; json := Some (VDict ∅) |}.

(** Status 201 and a body that is not JSON. *)
Definition created_without_json : Response :=
  {| status_code := 201;
     headers := {[ "Location" := "https://ca.example/acme/reg/1" ]};
     links := ∅; content := ""; json := None |}.

Definition issued_response : Response :=
  {| status_code := 201;
     headers := {[ "Location" := "https://ca/cert/123" ]};
     links := {[ "up" := {| link_url := "https://ca/issuer" |} ]};
     content := "(certificate)"; json := None |}.

Definition issuer_response : Response :=
  {| status_code := 200; headers := ∅; links := ∅;
     content := "(issuer certificate)"; json := None |}.

Definition ok_response : Response :=
  {| status_code := 200; headers := ∅; links := ∅; content := ""; json := None |}.

Definition not_found : Response :=
  {| status_code := 404; headers := ∅; links := ∅; content := ""; json := None |}.

Definition accepted_response : Response :=
  {| status_code := 202; headers := ∅; links := ∅; content := ""; json := None |}.

Definition service_unavailable : Response :=
  {| status_code := 503; headers := ∅; links := ∅; content := ""; json := None |}.

(** The account once it is registered. *)
Definition alice_registered : Account :=
  {| key := "alice-key"; uri := Some "https://ca.example/acme/reg/1" |}.

(** A caller that holds one dictionary, at location 1. *)
Definition world_with_params (d : dict) (script : list (exn + Response)) : World :=
  {| self := new_client Acme (Some alice_registered); heap := {[ 1%positive := d ]};
     net := script; log := [] |}.

End Sample.

(** ** Reasoning about computations *)

Section Proofs.
Context `{Crypto} `{Library} `{!Transport}.

Lemma bind_inr {A B} (m : M A) (k : A -> M B) w a w1 :
  m w = (inr a, w1) -> (x <- m;; k x) w = k a w1.
Proof. intros E. unfold bind. now rewrite E. Qed.

Lemma bind_inl {A B} (m : M A) (k : A -> M B) w e w1 :
  m w = (inl e, w1) -> (x <- m;; k x) w = (inl e, w1).
Proof. intros E. unfold bind. now rewrite E. Qed.

Section Keeps.
Context (R : relation World) `{!PreOrder R}.

Lemma keeps_ret {A} (a : A) : keeps R (ret a).
Proof. intros w. simpl. reflexivity. Qed.

Lemma keeps_raise {A} (e : exn) : keeps R (raise (A := A) e).
Proof. intros w. simpl. reflexivity. Qed.

Lemma keeps_lift {A} (r : exn + A) : keeps R (lift r).
Proof. intros w. simpl. reflexivity. Qed.

Lemma keeps_get_self : keeps R get_self.
Proof. intros w. simpl. reflexivity. Qed.

Lemma keeps_self_account : keeps R self_account.
Proof. intros w. unfold self_account. destruct (account (self w)); simpl; reflexivity. Qed.

Lemma keeps_deref l : keeps R (deref l).
Proof. intros w. simpl. reflexivity. Qed.

Lemma keeps_bind {A B} (m : M A) (k : A -> M B) :
  keeps R m -> (forall a, keeps R (k a)) -> keeps R (x <- m;; k x).
Proof.
  intros Hm Hk w. unfold bind. specialize (Hm w).
  destruct (m w) as [[e|a] w1]; simpl in *; [assumption|].
  etransitivity; [exact Hm | apply Hk].
Qed.

End Keeps.

Create HintDb frame.

#[local] Hint Resolve keeps_ret keeps_raise keeps_lift keeps_get_self
  keeps_self_account keeps_deref : frame.

(** Splits a computation along its binds and branches; what remains is left
    to the hints of [frame]. *)
Ltac frame :=
  repeat match goal with
    | |- keeps ?R (bind _ _) => apply (keeps_bind R); [ | intros ? ]
    | |- keeps _ (match ?x with _ => _ end) => destruct x
    | |- keeps _ _ => solve [ eauto with frame typeclass_instances ]
    end.

(** *** What each method keeps

    [R] is any relation that holds from a world to itself, composes, and is
    kept by the requests that are not POSTs.  Each lemma below then asks only
    for what the method it is about does besides. *)

Section Frame.
Context (R : relation World) `{!PreOrder R}.
Hypothesis keeps_send : forall rq, method rq <> POST -> keeps R (send rq).

Lemma keeps_get p hdrs : keeps R (get p hdrs).
Proof. unfold get. frame. Qed.

Lemma keeps_head p hdrs : keeps R (head p hdrs).
Proof. unfold head. frame. Qed.

Lemma keeps_requests_get u hdrs : keeps R (requests_get u hdrs).
Proof. unfold requests_get. now apply keeps_send. Qed.

Hint Resolve keeps_get keeps_head keeps_requests_get : frame.

Lemma keeps_response_json r : keeps R (response_json r).
Proof. unfold response_json. frame. Qed.

Lemma keeps_json r : keeps R (_json r).
Proof. unfold _json. frame. Qed.

Lemma keeps_getitem v k : keeps R (getitem v k).
Proof. unfold getitem. frame. Qed.

Lemma keeps_contains k v : keeps R (contains k v).
Proof. unfold contains. frame. Qed.

Hint Resolve keeps_response_json keeps_json keeps_getitem keeps_contains : frame.

Lemma keeps_Acme_get_directory : keeps R Acme_get_directory.
Proof. unfold Acme_get_directory. frame. Qed.

Lemma keeps_AcmeV2_get_directory : keeps R AcmeV2_get_directory.
Proof. unfold AcmeV2_get_directory. frame. Qed.

Hint Resolve keeps_Acme_get_directory keeps_AcmeV2_get_directory : frame.

Lemma keeps_url_from_directory what : keeps R (url_from_directory what).
Proof. unfold url_from_directory. frame. Qed.

Lemma keeps_terms_from_directory : keeps R terms_from_directory.
Proof. unfold terms_from_directory. frame. Qed.

Hint Resolve keeps_url_from_directory keeps_terms_from_directory : frame.

Lemma keeps_Acme_get_nonce : keeps R Acme_get_nonce.
Proof. unfold Acme_get_nonce. frame. Qed.

Lemma keeps_AcmeV2_get_nonce : keeps R AcmeV2_get_nonce.
Proof. unfold AcmeV2_get_nonce. frame. Qed.

Hint Resolve keeps_Acme_get_nonce keeps_AcmeV2_get_nonce : frame.

Lemma keeps_Acme_get_headers : keeps R Acme_get_headers.
Proof. unfold Acme_get_headers. frame. Qed.

Lemma keeps_AcmeV2_get_headers u : keeps R (AcmeV2_get_headers u).
Proof. unfold AcmeV2_get_headers. frame. Qed.

Hint Resolve keeps_Acme_get_headers keeps_AcmeV2_get_headers : frame.

(** The two [post] methods, for a relation that every request keeps. *)
Section Posts.
Hypothesis keeps_send_post : forall rq, method rq = POST -> keeps R (send rq).

Lemma keeps_Acme_post_of_send p body hdrs : keeps R (Acme_post p body hdrs).
Proof. unfold Acme_post. frame. Qed.

Lemma keeps_AcmeV2_post_of_send p body hdrs : keeps R (AcmeV2_post p body hdrs).
Proof. unfold AcmeV2_post. frame. Qed.

End Posts.

(** The operations, for a relation that the two [post] methods keep. *)
Section Operations.
Hypothesis keeps_Acme_post : forall p body hdrs, keeps R (Acme_post p body hdrs).
Hypothesis keeps_AcmeV2_post : forall p body hdrs, keeps R (AcmeV2_post p body hdrs).

Lemma keeps_post p body hdrs : keeps R (post p body hdrs).
Proof. unfold post. frame. Qed.

Hint Resolve keeps_post : frame.

Lemma keeps_get_registration : keeps R get_registration.
Proof. unfold get_registration. frame. Qed.

Lemma keeps_new_authorization domain : keeps R (new_authorization domain).
Proof. unfold new_authorization. frame. Qed.

Lemma keeps_validate_authorization uri _type ka :
  keeps R (validate_authorization uri _type ka).
Proof. unfold validate_authorization. frame. Qed.

Lemma keeps_get_authorization uri : keeps R (get_authorization uri).
Proof. unfold get_authorization. frame. Qed.

Lemma keeps_issue_certificate csr : keeps R (issue_certificate csr).
Proof. unfold issue_certificate. frame. Qed.

Lemma keeps_revoke_certificate cert : keeps R (revoke_certificate cert).
Proof. unfold revoke_certificate. frame. Qed.

Section Heap.
Hypothesis keeps_alloc : forall d, keeps R (alloc d).
Hypothesis keeps_setitem : forall l k v, keeps R (setitem l k v).

Lemma keeps_update_registration params : keeps R (update_registration params).
Proof. unfold update_registration. frame. Qed.

End Heap.

Section Uri.
Hypothesis keeps_set_account_uri : forall u, keeps R (set_account_uri u).

Lemma keeps_register email : keeps R (register email).
Proof. unfold register, Acme_register, AcmeV2_register. frame. Qed.

End Uri.

End Operations.

End Frame.

(** *** The relations at hand *)

#[local] Instance same_objects_preorder : PreOrder same_objects.
Proof.
  split.
  - intros w. now split.
  - intros w1 w2 w3 [E1 E2] [E3 E4]. split; congruence.
Qed.

#[local] Instance same_self_preorder : PreOrder same_self.
Proof.
  split.
  - intros w. reflexivity.
  - intros w1 w2 w3 E1 E2. unfold same_self in *. congruence.
Qed.

#[local] Instance same_heap_preorder : PreOrder same_heap.
Proof.
  split.
  - intros w. reflexivity.
  - intros w1 w2 w3 E1 E2. unfold same_heap in *. congruence.
Qed.

#[local] Instance extends_quietly_preorder : PreOrder extends_quietly.
Proof.
  split.
  - intros w. exists []. split; [now rewrite app_nil_r | constructor].
  - intros w1 w2 w3 (l1 & E1 & Q1) (l2 & E2 & Q2). exists (l1 ++ l2). split.
    + now rewrite E2, E1, app_assoc.
    + now apply Forall_app.
Qed.

#[local] Instance keeps_fresh_preorder : PreOrder keeps_fresh.
Proof.
  split.
  - intros w F. exact F.
  - intros w1 w2 w3 F1 F2 F. apply F2, F1, F.
Qed.

Lemma send_log rq w :
  log (snd (send rq w)) = log w ++ [(rq, fst (send rq w))].
Proof. unfold send. now destruct (requests_request (net w) rq). Qed.

Lemma send_same_objects rq : keeps same_objects (send rq).
Proof. intros w. unfold send. now destruct (requests_request (net w) rq). Qed.

Lemma send_same_self rq : keeps same_self (send rq).
Proof. intros w. apply send_same_objects. Qed.

Lemma send_quietly rq : method rq <> POST -> keeps extends_quietly (send rq).
Proof.
  intros Hm w. exists [(rq, fst (send rq w))]. split; [apply send_log|].
  repeat constructor. unfold is_post. simpl. now destruct (method rq).
Qed.

Lemma set_account_uri_quietly u : keeps extends_quietly (set_account_uri u).
Proof.
  intros w. unfold set_account_uri.
  destruct (account (self w)); simpl; exists []; (split; [now rewrite app_nil_r | constructor]).
Qed.

Lemma alloc_quietly d : keeps extends_quietly (alloc d).
Proof. intros w. exists []. split; [now rewrite app_nil_r | constructor]. Qed.

Lemma setitem_quietly l k v : keeps extends_quietly (setitem l k v).
Proof. intros w. exists []. split; [now rewrite app_nil_r | constructor]. Qed.

(** A signed request leaves the client object and the dictionaries alone. *)
Lemma post_same_objects p body hdrs : keeps same_objects (post p body hdrs).
Proof.
  apply keeps_post; try apply _; intros;
    [ apply keeps_Acme_post_of_send | apply keeps_AcmeV2_post_of_send ];
    try apply _; intros; apply send_same_objects.
Qed.

Lemma url_from_directory_same_objects what :
  keeps same_objects (url_from_directory what).
Proof.
  apply keeps_url_from_directory; [apply _|]. intros rq _. apply send_same_objects.
Qed.

Lemma Acme_get_nonce_same_objects : keeps same_objects Acme_get_nonce.
Proof.
  apply keeps_Acme_get_nonce; [apply _|]. intros rq _. apply send_same_objects.
Qed.

Lemma AcmeV2_get_nonce_same_objects : keeps same_objects AcmeV2_get_nonce.
Proof.
  apply keeps_AcmeV2_get_nonce; [apply _|]. intros rq _. apply send_same_objects.
Qed.

(** A signed request that was answered was made for an account, and the
    client object is the same after it. *)
Lemma Acme_post_account p body hdrs w r w1 :
  Acme_post p body hdrs w = (inr r, w1) ->
  self w1 = self w /\ exists a, account (self w) = Some a.
Proof.
  intros E. split.
  - pose proof (keeps_Acme_post_of_send same_objects
                  (fun rq _ => send_same_objects rq)
                  (fun rq _ => send_same_objects rq) p body hdrs w) as K.
    rewrite E in K. apply K.
  - destruct (account (self w)) as [a|] eqn:Ea; [now exists a|].
    unfold Acme_post, Acme_get_headers, bind, self_account in E.
    now rewrite Ea in E.
Qed.

Lemma AcmeV2_post_account p body hdrs w r w1 :
  AcmeV2_post p body hdrs w = (inr r, w1) ->
  self w1 = self w /\ exists a, account (self w) = Some a.
Proof.
  intros E. split.
  - pose proof (keeps_AcmeV2_post_of_send same_objects
                  (fun rq _ => send_same_objects rq)
                  (fun rq _ => send_same_objects rq) p body hdrs w) as K.
    rewrite E in K. apply K.
  - destruct (account (self w)) as [a|] eqn:Ea; [now exists a|].
    unfold AcmeV2_post, AcmeV2_get_headers, bind, get_self, lift, self_account in E.
    destruct (path (self w) p); [discriminate|]. now rewrite Ea in E.
Qed.

(** Writing the URI into an account that is there. *)
Lemma set_account_uri_some u w a :
  account (self w) = Some a ->
  exists w2, set_account_uri u w = (inr tt, w2) /\
             account (self w2) = Some {| key := key a; uri := u |} /\
             heap w2 = heap w /\ log w2 = log w /\ net w2 = net w.
Proof.
  intros Ea. unfold set_account_uri. rewrite Ea. eexists. split; [reflexivity|].
  simpl. auto.
Qed.

(** What [Acme.post] sends once the nonce is there. *)
Lemma Acme_post_after_nonce p body hdrs w n w1 a t :
  Acme_get_nonce w = (inr n, w1) ->
  account (self w) = Some a ->
  path (self w) p = inr t ->
  Acme_post p body hdrs w
    = send {| method := POST; target := t;
              req_headers :=
                update hdrs (<["Content-Type" := VStr "application/json"]>
                               DEFAULT_HEADERS);
              data := Some (sign_request (key a) (generate_header (key a))
                              (<["nonce" := n]> (generate_header (key a))) body);
              req_verify := verify_kwarg (self w) |} w1.
Proof.
  intros En Ea Ep.
  pose proof (Acme_get_nonce_same_objects w) as [Es _]. rewrite En in Es. simpl in Es.
  unfold Acme_post, Acme_get_headers, bind, self_account, get_self, lift, ret.
  rewrite Ea, En. cbv beta iota. rewrite Es, Ea. cbv beta iota.
  rewrite Es, Ep. reflexivity.
Qed.

(** What [AcmeV2.post] sends once the nonce is there. *)
Lemma AcmeV2_post_after_nonce p body hdrs w n w1 a t :
  AcmeV2_get_nonce w = (inr n, w1) ->
  account (self w) = Some a ->
  path (self w) p = inr t ->
  AcmeV2_post p body hdrs w
    = send {| method := POST; target := t;
              req_headers :=
                update hdrs (<["Content-Type" := VStr "application/jose+json"]>
                               DEFAULT_HEADERS);
              data := Some (sign_request_v2 (key a)
                              (<["url" := VStr t]>
                                 (<["nonce" := n]> (generate_header (key a)))) body);
              req_verify := verify_kwarg (self w) |} w1.
Proof.
  intros En Ea Ep.
  pose proof (AcmeV2_get_nonce_same_objects w) as [Es _]. rewrite En in Es. simpl in Es.
  unfold AcmeV2_post, AcmeV2_get_headers, bind, self_account, get_self, lift, ret.
  rewrite Ep, Ea, En. cbv beta iota. rewrite Es, Ea. cbv beta iota.
  rewrite Es, Ep. reflexivity.
Qed.

(** *** The log of exchanges *)

Lemma quietly_snoc w rq res w1 :
  log w1 = log w ++ [(rq, res)] -> method rq <> POST -> extends_quietly w w1.
Proof.
  intros L Hm. exists [(rq, res)]. split; [exact L|].
  repeat constructor. unfold is_post. simpl. now destruct (method rq).
Qed.

Lemma get_answered p hdrs w r w1 :
  get p hdrs w = (inr r, w1) ->
  exists rq, method rq = GET /\ log w1 = log w ++ [(rq, inr r)].
Proof.
  unfold get, bind, get_self, lift. destruct (path (self w) p) as [e|t]; [discriminate|].
  intros E. match type of E with send ?rq _ = _ =>
    exists rq; pose proof (send_log rq w) as L end.
  rewrite E in L. now split.
Qed.

Lemma head_answered p hdrs w r w1 :
  head p hdrs w = (inr r, w1) ->
  exists rq, method rq = HEAD /\ log w1 = log w ++ [(rq, inr r)].
Proof.
  unfold head, bind, get_self, lift. destruct (path (self w) p) as [e|t]; [discriminate|].
  intros E. match type of E with send ?rq _ = _ =>
    exists rq; pose proof (send_log rq w) as L end.
  rewrite E in L. now split.
Qed.

Lemma Acme_get_nonce_fetched w n w1 :
  Acme_get_nonce w = (inr n, w1) -> fetched w n w1.
Proof.
  unfold Acme_get_nonce, bind.
  destruct (get (VStr "/directory") None w) as [[e|r] w'] eqn:E; [discriminate|].
  intros [= <- <-]. destruct (get_answered _ _ _ _ _ E) as (rq & Hm & L).
  exists [], (rq, inr r). split; [exact L|]. split; [|reflexivity].
  repeat constructor. unfold is_post. simpl. now rewrite Hm.
Qed.

Lemma AcmeV2_get_nonce_fetched w n w1 :
  AcmeV2_get_nonce w = (inr n, w1) -> fetched w n w1.
Proof.
  unfold AcmeV2_get_nonce, bind.
  pose proof (keeps_url_from_directory extends_quietly send_quietly "newNonce" w) as Q.
  destruct (url_from_directory "newNonce" w) as [[e|u] w0]; [discriminate|].
  destruct (head u _ w0) as [[e|r] w'] eqn:E; [discriminate|].
  intros [= <- <-]. destruct (head_answered _ _ _ _ _ E) as (rq & Hm & L).
  destruct Q as (l0 & L0 & Q0). simpl in L0.
  exists l0, (rq, inr r). split; [|split; [|reflexivity]].
  - now rewrite L, L0, app_assoc.
  - apply Forall_app. split; [exact Q0|].
    repeat constructor. unfold is_post. simpl. now rewrite Hm.
Qed.

Lemma posted_quietly w w1 e : extends_quietly w w1 -> posted w (inl e) w1.
Proof. intros (l & L & Q). exists l. split; [exact L|]. left. eauto. Qed.

Lemma posted_signed w n w1 rq res w2 :
  fetched w n w1 -> log w2 = log w1 ++ [(rq, res)] ->
  method rq = POST -> nonce_of rq = Some n -> posted w res w2.
Proof.
  intros (l0 & y & L & Q & Hy) L2 Hm Hn.
  exists (l0 ++ [y; (rq, res)]). split.
  - rewrite L2, L, <- !app_assoc. reflexivity.
  - right. exists l0, y, rq. repeat split; try assumption.
    + apply Forall_app in Q as [_ Q]. now inversion Q.
    + exists n. now split.
Qed.

Lemma Acme_post_posted p body hdrs w :
  posted w (fst (Acme_post p body hdrs w)) (snd (Acme_post p body hdrs w)).
Proof.
  destruct (account (self w)) as [a|] eqn:Ea.
  2:{ unfold Acme_post, Acme_get_headers, bind, self_account. rewrite Ea. simpl.
      apply posted_quietly. reflexivity. }
  pose proof (keeps_Acme_get_nonce extends_quietly send_quietly w) as Q.
  destruct (Acme_get_nonce w) as [[e|n] w1] eqn:En.
  { unfold Acme_post, Acme_get_headers, bind, self_account. rewrite Ea, En. simpl.
    now apply posted_quietly. }
  destruct (path (self w) p) as [e|t] eqn:Ep.
  { pose proof (Acme_get_nonce_same_objects w) as [Es _]. rewrite En in Es. simpl in Es.
    unfold Acme_post, Acme_get_headers, bind, self_account, get_self, lift, ret.
    rewrite Ea, En. cbv beta iota. rewrite Es, Ea. cbv beta iota. rewrite Es, Ep.
    simpl. now apply posted_quietly. }
  rewrite (Acme_post_after_nonce _ _ _ _ _ _ _ _ En Ea Ep).
  eapply posted_signed; [apply Acme_get_nonce_fetched, En|apply send_log|reflexivity|].
  unfold nonce_of, protected_of. simpl. apply lookup_insert_eq.
Qed.

Lemma AcmeV2_post_posted p body hdrs w :
  posted w (fst (AcmeV2_post p body hdrs w)) (snd (AcmeV2_post p body hdrs w)).
Proof.
  destruct (path (self w) p) as [e|t] eqn:Ep.
  { unfold AcmeV2_post, bind, get_self, lift. rewrite Ep. simpl.
    apply posted_quietly. reflexivity. }
  destruct (account (self w)) as [a|] eqn:Ea.
  2:{ unfold AcmeV2_post, AcmeV2_get_headers, bind, get_self, lift, self_account.
      rewrite Ep, Ea. simpl. apply posted_quietly. reflexivity. }
  pose proof (keeps_AcmeV2_get_nonce extends_quietly send_quietly w) as Q.
  destruct (AcmeV2_get_nonce w) as [[e|n] w1] eqn:En.
  { unfold AcmeV2_post, AcmeV2_get_headers, bind, get_self, lift, self_account.
    rewrite Ep, Ea, En. simpl. now apply posted_quietly. }
  rewrite (AcmeV2_post_after_nonce _ _ _ _ _ _ _ _ En Ea Ep).
  eapply posted_signed; [apply AcmeV2_get_nonce_fetched, En|apply send_log|reflexivity|].
  unfold nonce_of, protected_of. simpl.
  rewrite lookup_insert_ne by discriminate. apply lookup_insert_eq.
Qed.

(** *** Freshness of nonces along the log *)

Lemma fresh_nonces_app_quiet l l' :
  fresh_nonces l -> quiet l' -> fresh_nonces (l ++ l').
Proof.
  intros F Q i x Hi Hx.
  destruct (lookup_app_Some l l' i x) as [[Hl|[Hlen Hl']] _]; [exact Hi| |].
  - destruct (F i x Hl Hx) as (j & y & -> & Hj & Hs).
    exists j, y. split; [reflexivity|]. split; [|exact Hs].
    now apply lookup_app_l_Some.
  - apply list_elem_of_lookup_2 in Hl'.
    unfold quiet in Q. rewrite Forall_forall in Q.
    rewrite (Q x Hl') in Hx. discriminate.
Qed.

Lemma fresh_nonces_snoc l y x :
  fresh_nonces (l ++ [y]) -> supplies y x -> fresh_nonces ((l ++ [y]) ++ [x]).
Proof.
  intros F Hs i z Hi Hz.
  destruct (lookup_app_Some (l ++ [y]) [x] i z) as [[Hl|[Hlen Hl']] _]; [exact Hi| |].
  - destruct (F i z Hl Hz) as (j & y' & -> & Hj & Hs').
    exists j, y'. split; [reflexivity|]. split; [|exact Hs'].
    now apply lookup_app_l_Some.
  - rewrite length_app in Hlen, Hl'. simpl in Hlen, Hl'.
    assert (i = S (length l)) as ->.
    { apply lookup_lt_Some in Hl'. simpl in Hl'. lia. }
    replace (S (length l) - (length l + 1))%nat with 0%nat in Hl' by lia.
    injection Hl' as <-.
    exists (length l), y. split; [reflexivity|]. split; [|exact Hs].
    apply lookup_app_l_Some. now rewrite list_lookup_middle.
Qed.

Lemma fresh_nonces_app_signed l l' res :
  fresh_nonces l -> signed_exchange l' res -> fresh_nonces (l ++ l').
Proof.
  intros F (l0 & y & rq & -> & Q & _ & Hs).
  replace (l ++ l0 ++ [y; (rq, res)]) with (((l ++ l0) ++ [y]) ++ [(rq, res)])
    by now rewrite <- !app_assoc.
  apply fresh_nonces_snoc; [|exact Hs].
  rewrite <- app_assoc. now apply fresh_nonces_app_quiet.
Qed.

Lemma quietly_keeps_fresh w w1 : extends_quietly w w1 -> keeps_fresh w w1.
Proof. intros (l & E & Q) F. rewrite E. now apply fresh_nonces_app_quiet. Qed.

Lemma posted_keeps_fresh w res w1 : posted w res w1 -> keeps_fresh w w1.
Proof.
  intros (l & E & [[Q _]|Hs]) F; unfold keeps_fresh in *; rewrite E.
  - now apply fresh_nonces_app_quiet.
  - now apply fresh_nonces_app_signed with res.
Qed.

Lemma send_keeps_fresh rq : method rq <> POST -> keeps keeps_fresh (send rq).
Proof. intros Hm w. now apply quietly_keeps_fresh, send_quietly. Qed.

Lemma perform_keeps_fresh op : keeps keeps_fresh (perform op).
Proof.
  assert (P1 : forall p body hdrs, keeps keeps_fresh (Acme_post p body hdrs)).
  { intros p body hdrs w. eapply posted_keeps_fresh, Acme_post_posted. }
  assert (P2 : forall p body hdrs, keeps keeps_fresh (AcmeV2_post p body hdrs)).
  { intros p body hdrs w. eapply posted_keeps_fresh, AcmeV2_post_posted. }
  assert (U : forall u, keeps keeps_fresh (set_account_uri u)).
  { intros u w. apply quietly_keeps_fresh, set_account_uri_quietly. }
  assert (A : forall d, keeps keeps_fresh (alloc d)).
  { intros d w. apply quietly_keeps_fresh, alloc_quietly. }
  assert (T : forall l k v, keeps keeps_fresh (setitem l k v)).
  { intros l k v w. apply quietly_keeps_fresh, setitem_quietly. }
  pose proof send_keeps_fresh as Q.
  destruct op; unfold perform; (apply (keeps_bind keeps_fresh); [|intros; apply keeps_ret; apply _]).
  - apply keeps_register; first [apply _ | assumption].
  - apply keeps_get_registration; first [apply _ | assumption].
  - apply keeps_update_registration; first [apply _ | assumption].
  - apply keeps_new_authorization; first [apply _ | assumption].
  - apply keeps_validate_authorization; first [apply _ | assumption].
  - apply keeps_get_authorization; first [apply _ | assumption].
  - apply keeps_issue_certificate; first [apply _ | assumption].
  - apply keeps_revoke_certificate; first [apply _ | assumption].
Qed.

Lemma run_keeps_fresh ops w :
  fresh_nonces (log w) -> fresh_nonces (log (run ops w)).
Proof.
  revert w. induction ops as [|op ops IH]; intros w F; simpl; [exact F|].
  apply IH. now apply perform_keeps_fresh.
Qed.

(** ** The statements of the specification *)

(** C1 (amended): whatever the email, once the server has answered the
    signed registration request of either client: on status 201 the URI of
    the account is set to the [Location] header, and the call returns a
    [RegistrationResult] with that URI when the body of the response is
    JSON (and, for the v2 client, the terms lookup in the directory goes
    through) but raises the generic [AcmeError] when the body is not JSON;
    on status 409 it raises [AccountAlreadyExistsError] with the response and
    its [Location] header; on any other status it raises [AcmeError] with
    the response. *)
Theorem register_outcomes email :
  (forall w r w1,
     Acme_post (VStr "/acme/new-reg")
       {[ "resource" := VStr "new-reg";
          "contact" := VList [VStr ("mailto:" +:+ email)] ]} None w = (inr r, w1) ->
     let uri := headers r !! "Location" in
     (status_code r = 201 ->
        exists a w2,
          account (self w1) = Some a /\
          set_account_uri uri w1 = (inr tt, w2) /\
          account (self w2) = Some {| key := key a; uri := uri |} /\
          (forall j, json r = Some j ->
             Acme_register email w
               = (inr {| contents := j; reg_uri := uri;
                         terms := str_or_none
                                    (link_url <$> links r !! "terms-of-service") |},
                  w2)) /\
          (json r = None ->
             Acme_register email w = (inl (AcmeError ErrInvalidJSON), w2))) /\
     (status_code r = 409 ->
        Acme_register email w = (inl (AccountAlreadyExistsError r uri), w1)) /\
     (status_code r <> 201 -> status_code r <> 409 ->
        Acme_register email w = (inl (AcmeError (ErrResponse r)), w1))) /\
  (forall w u w0 r w1,
     url_from_directory "newAccount" w = (inr u, w0) ->
     AcmeV2_post u
       {[ "termsOfServiceAgreed" := VBool true;
          "contact" := VList [VStr ("mailto:" +:+ email)] ]} None w0 = (inr r, w1) ->
     let uri := headers r !! "Location" in
     (status_code r = 201 ->
        exists a w2,
          account (self w1) = Some a /\
          set_account_uri uri w1 = (inr tt, w2) /\
          account (self w2) = Some {| key := key a; uri := uri |} /\
          forall t w3, terms_from_directory w2 = (inr t, w3) ->
            account (self w3) = Some {| key := key a; uri := uri |} /\
            (forall j, json r = Some j ->
               AcmeV2_register email w
                 = (inr {| contents := j; reg_uri := uri; terms := t |}, w3)) /\
            (json r = None ->
               AcmeV2_register email w = (inl (AcmeError ErrInvalidJSON), w3))) /\
     (status_code r = 409 ->
        AcmeV2_register email w = (inl (AccountAlreadyExistsError r uri), w1)) /\
     (status_code r <> 201 -> status_code r <> 409 ->
        AcmeV2_register email w = (inl (AcmeError (ErrResponse r)), w1))).
Proof.
  split.
  - intros w r w1 E uri. unfold Acme_register. rewrite (bind_inr _ _ _ _ _ E).
    fold uri. split; [|split].
    + intros E201. rewrite E201. simpl.
      destruct (Acme_post_account _ _ _ _ _ _ E) as [Es [a Ea]].
      rewrite <- Es in Ea.
      destruct (set_account_uri_some uri w1 a Ea) as (w2 & Eset & Ea2 & _).
      exists a, w2. do 3 (split; [assumption|]). split.
      * intros j Hj. rewrite (bind_inr _ _ _ _ _ Eset).
        unfold _json. now rewrite Hj.
      * intros Hj. rewrite (bind_inr _ _ _ _ _ Eset).
        unfold _json. now rewrite Hj.
    + intros E409. now rewrite E409.
    + intros N201 N409.
      destruct (Z.eqb_spec (status_code r) 201); [contradiction|].
      destruct (Z.eqb_spec (status_code r) 409); [contradiction|]. reflexivity.
  - intros w u w0 r w1 Eu E uri. unfold AcmeV2_register.
    rewrite (bind_inr _ _ _ _ _ Eu), (bind_inr _ _ _ _ _ E).
    fold uri. split; [|split].
    + intros E201. rewrite E201. simpl.
      destruct (AcmeV2_post_account _ _ _ _ _ _ E) as [Es [a Ea]].
      rewrite <- Es in Ea.
      destruct (set_account_uri_some uri w1 a Ea) as (w2 & Eset & Ea2 & _).
      exists a, w2. do 3 (split; [assumption|]).
      intros t w3 Et. split; [|split].
      * pose proof (keeps_terms_from_directory same_objects
                      (fun rq _ => send_same_objects rq) w2) as K.
        rewrite Et in K. destruct K as [K _]. simpl in K. now rewrite K.
      * intros j Hj.
        rewrite (bind_inr _ _ _ _ _ Eset), (bind_inr _ _ _ _ _ Et).
        unfold _json. now rewrite Hj.
      * intros Hj.
        rewrite (bind_inr _ _ _ _ _ Eset), (bind_inr _ _ _ _ _ Et).
        unfold _json. now rewrite Hj.
    + intros E409. now rewrite E409.
    + intros N201 N409.
      destruct (Z.eqb_spec (status_code r) 201); [contradiction|].
      destruct (Z.eqb_spec (status_code r) 409); [contradiction|]. reflexivity.
Qed.

(** C5: whatever the certificate, once the server has answered the signed
    POST to the revocation endpoint, [revoke_certificate] returns [True] if
    the status is exactly 200 and raises [AcmeError] with the response for
    any other status, other 2xx codes included; it returns [True] in no
    other case. *)
Theorem revoke_certificate_only_200 cert w r w1 :
  post (VStr "/acme/revoke-cert")
       {[ "resource" := VStr "revoke-cert"; "certificate" := cert ]} None w
    = (inr r, w1) ->
  (status_code r = 200 -> revoke_certificate cert w = (inr true, w1)) /\
  (status_code r <> 200 ->
     revoke_certificate cert w = (inl (AcmeError (ErrResponse r)), w1)) /\
  (forall b, fst (revoke_certificate cert w) = inr b <->
             b = true /\ status_code r = 200).
Proof.
  intros E. unfold revoke_certificate. rewrite (bind_inr _ _ _ _ _ E).
  destruct (Z.eqb_spec (status_code r) 200) as [E200|N200].
  - split; [|split]; [easy|easy|]. intros b. simpl. split.
    + now intros [= <-].
    + now intros [-> _].
  - split; [|split]; [easy|easy|]. intros b. simpl. split.
    + discriminate.
    + now intros [_ ?].
Qed.

(** C4: whatever the CSR, once the server has answered the signed POST to
    the issuance endpoint: on status 201 with a link of relation [up], the
    chain is fetched with one unsigned GET to the linked URL as it stands,
    and the result holds the body of the response, its [Location] header and
    the body of the fetched chain; on status 201 without such a link the
    intermediate is [None] and nothing is fetched; any other status raises
    [AcmeError] with the response. *)
Theorem issue_certificate_result csr w r w1 :
  post (VStr "/acme/new-cert") {[ "resource" := VStr "new-cert"; "csr" := csr ]}
       (Some {[ "Accept" := VStr "application/pkix-cert" ]}) w = (inr r, w1) ->
  (status_code r = 201 ->
     forall up, links r !! "up" = Some up ->
       let fetch := {| method := GET; target := link_url up;
                       req_headers := DEFAULT_HEADERS; data := None;
                       req_verify := None |} in
       forall issuer w2, send fetch w1 = (inr issuer, w2) ->
         issue_certificate csr w
           = (inr {| certificate := content r;
                     location := headers r !! "Location";
                     intermediate := Some (content issuer) |}, w2) /\
         log w2 = log w1 ++ [(fetch, inr issuer)]) /\
  (status_code r = 201 -> links r !! "up" = None ->
     issue_certificate csr w
       = (inr {| certificate := content r;
                 location := headers r !! "Location";
                 intermediate := None |}, w1)) /\
  (status_code r <> 201 ->
     issue_certificate csr w = (inl (AcmeError (ErrResponse r)), w1)).
Proof.
  intros E. unfold issue_certificate. rewrite (bind_inr _ _ _ _ _ E).
  destruct (Z.eqb_spec (status_code r) 201) as [E201|N201].
  - split; [|split]; [| |easy].
    + intros _ up Hup issuer w2 Hsend. rewrite Hup. split.
      * unfold requests_get.
        rewrite (bind_inr _ _ _ _ _ (bind_inr _ _ _ _ _ Hsend)). reflexivity.
      * match type of Hsend with send ?rq _ = _ =>
          pose proof (send_log rq w1) as L end.
        rewrite Hsend in L. exact L.
    + intros _ Hup. now rewrite Hup.
  - split; [|split]; easy.
Qed.

(** C6: a path that starts with [http] is cut down to the path component of
    the URL and that component is joined to the base URL of the client; so
    an absolute link resolves to the same target as its path component
    does. *)
Theorem path_of_absolute_url c p q :
  String.prefix "http" p = true ->
  urlparse_path p = Some q ->
  path c (VStr p) = match urljoin (url c) q with
                    | Some t => inr t
                    | None => inl ValueError
                    end /\
  (String.prefix "http" q = false -> path c (VStr p) = path c (VStr q)).
Proof.
  intros Hp Hq. unfold path. rewrite Hp, Hq. split; [reflexivity|].
  intros Hn. now rewrite Hn.
Qed.

(** C7: whatever the name, once the directory fetch of the v2 client has
    been answered with status 200 and a JSON object, [url_from_directory]
    returns the value that object holds under the name, and does nothing
    besides the fetch. *)
Theorem url_from_directory_is_lookup what w r w1 d v :
  AcmeV2_get_directory w = (inr r, w1) ->
  status_code r = 200 ->
  json r = Some (VDict d) ->
  d !! what = Some v ->
  url_from_directory what w = (inr v, w1).
Proof.
  intros E E200 Hj Hv. unfold url_from_directory.
  rewrite (bind_inr _ _ _ _ _ E), E200. simpl.
  unfold response_json. rewrite Hj.
  unfold bind, ret, getitem. now rewrite Hv.
Qed.

(** C9: when the response to the nonce fetch has no [Replay-Nonce] header,
    [get_nonce] of either client returns [None] and does not raise; and the
    signed request that follows is built and sent all the same, with [None]
    as the nonce of its protected header. *)
Theorem absent_nonce_is_none_and_unchecked :
  (forall w r w1,
     get (VStr "/directory") None w = (inr r, w1) ->
     headers r !! "Replay-Nonce" = None ->
     Acme_get_nonce w = (inr VNone, w1) /\
     forall a t p body hdrs,
       account (self w) = Some a -> path (self w) p = inr t ->
       Acme_post p body hdrs w
         = send {| method := POST; target := t;
                   req_headers :=
                     update hdrs (<["Content-Type" := VStr "application/json"]>
                                    DEFAULT_HEADERS);
                   data := Some (sign_request (key a) (generate_header (key a))
                                   (<["nonce" := VNone]> (generate_header (key a)))
                                   body);
                   req_verify := verify_kwarg (self w) |} w1) /\
  (forall w u w0 r w1,
     url_from_directory "newNonce" w = (inr u, w0) ->
     head u (Some {[ "resource" := VStr "new-reg"; "payload" := VNone ]}) w0
       = (inr r, w1) ->
     headers r !! "Replay-Nonce" = None ->
     AcmeV2_get_nonce w = (inr VNone, w1) /\
     forall a t p body hdrs,
       account (self w) = Some a -> path (self w) p = inr t ->
       AcmeV2_post p body hdrs w
         = send {| method := POST; target := t;
                   req_headers :=
                     update hdrs (<["Content-Type" := VStr "application/jose+json"]>
                                    DEFAULT_HEADERS);
                   data := Some (sign_request_v2 (key a)
                                   (<["url" := VStr t]>
                                      (<["nonce" := VNone]>
                                         (generate_header (key a)))) body);
                   req_verify := verify_kwarg (self w) |} w1).
Proof.
  split.
  - intros w r w1 E Hn.
    assert (En : Acme_get_nonce w = (inr VNone, w1)).
    { unfold Acme_get_nonce. rewrite (bind_inr _ _ _ _ _ E). now rewrite Hn. }
    split; [exact En|]. intros a t p body hdrs Ea Ep.
    now apply Acme_post_after_nonce.
  - intros w u w0 r w1 Eu E Hn.
    assert (En : AcmeV2_get_nonce w = (inr VNone, w1)).
    { unfold AcmeV2_get_nonce.
      rewrite (bind_inr _ _ _ _ _ Eu), (bind_inr _ _ _ _ _ E). now rewrite Hn. }
    split; [exact En|]. intros a t p body hdrs Ea Ep.
    now apply AcmeV2_post_after_nonce.
Qed.

(** C2: along any sequence of calls on one client, every signed request of
    the log comes right after the fetch that supplied the nonce of its
    protected header; so between two signed requests there is always a fetch,
    the one whose token the later request carries, and when the server hands
    out no token twice, two signed requests share a nonce only if it is the
    null token. *)
Theorem signed_requests_use_fresh_nonces ops w :
  fresh_nonces (log w) ->
  let l := log (run ops w) in
  fresh_nonces l /\
  (forall i j xi xj, (i < j)%nat -> l !! i = Some xi -> l !! j = Some xj ->
     is_post xi = true -> is_post xj = true ->
     exists k y, (i < k < j)%nat /\ l !! k = Some y /\ supplies y xj) /\
  ((forall a b ya yb n, a <> b -> l !! a = Some ya -> l !! b = Some yb ->
      issued ya = Some n -> issued yb = Some n -> n = VNone) ->
   forall i j xi xj n, i <> j -> l !! i = Some xi -> l !! j = Some xj ->
     is_post xi = true -> is_post xj = true ->
     nonce_of (fst xi) = Some n -> nonce_of (fst xj) = Some n -> n = VNone).
Proof.
  intros F0 l. pose proof (run_keeps_fresh ops w F0) as F. fold l in F.
  split; [exact F|]. split.
  - intros i j xi xj Hij Hi Hj Pi Pj.
    destruct (F j xj Hj Pj) as (k & y & -> & Hk & Hs).
    exists k, y. split; [|now split].
    assert (k <> i).
    { intros ->. rewrite Hi in Hk. injection Hk as <-.
      destruct Hs as [Hq _]. congruence. }
    lia.
  - intros Once i j xi xj n Hij Hi Hj Pi Pj Ni Nj.
    destruct (F i xi Hi Pi) as (ki & yi & -> & Hki & _ & ni & Ii & Ni').
    destruct (F j xj Hj Pj) as (kj & yj & -> & Hkj & _ & nj & Ij & Nj').
    assert (ni = n) as -> by congruence.
    assert (nj = n) as -> by congruence.
    apply (Once ki kj yi yj n); try assumption. congruence.
Qed.

Lemma register_by_class email w :
  register email w = match class_of (self w) with
                     | Acme => Acme_register email w
                     | AcmeV2 => AcmeV2_register email w
                     end.
Proof. unfold register, bind, get_self. now destruct (class_of (self w)). Qed.

Lemma perform_register_world email w :
  snd (perform (Register email) w) = snd (register email w).
Proof.
  unfold perform, bind. now destruct (register email w) as [[e|x] w1].
Qed.

(** C8 (amended): whatever the call, the account record of the caller is
    the same after it, except after a [register] whose registration request
    the server answered with status 201: then the URI of the account, and
    nothing else in it, has become the [Location] header of that answer,
    whether the call goes on to return or raises. *)
Theorem account_changes_only_on_201 op w :
  let w' := snd (perform op w) in
  account (self w') = account (self w) \/
  exists email r a,
    op = Register email /\ registration_answered email w r /\
    status_code r = 201 /\ account (self w) = Some a /\
    account (self w') = Some {| key := key a; uri := headers r !! "Location" |}.
Proof.
  intros w'. subst w'.
  assert (P1 : forall p body hdrs, keeps same_self (Acme_post p body hdrs)).
  { intros. apply keeps_Acme_post_of_send; try apply _; intros; apply send_same_self. }
  assert (P2 : forall p body hdrs, keeps same_self (AcmeV2_post p body hdrs)).
  { intros. apply keeps_AcmeV2_post_of_send; try apply _; intros; apply send_same_self. }
  assert (Q : forall rq, method rq <> POST -> keeps same_self (send rq)).
  { intros rq _. apply send_same_self. }
  assert (A : forall d, keeps same_self (alloc d)) by (intros d w0; reflexivity).
  assert (T : forall l k v, keeps same_self (setitem l k v))
    by (intros l k v w0; reflexivity).
  assert (K : forall X (m : M X), keeps same_self m ->
              account (self (snd ((m;;; ret tt) w))) = account (self w)).
  { intros X m Hm. pose proof (Hm w) as Es. unfold bind.
    destruct (m w) as [[e|x] w1]; simpl in *; now rewrite Es. }
  destruct op as [email| |params|domain|uri _type ka|uri|csr|cert].
  2:{ left. apply K, keeps_get_registration; first [apply _ | assumption]. }
  2:{ left. apply K, keeps_update_registration; first [apply _ | assumption]. }
  2:{ left. apply K, keeps_new_authorization; first [apply _ | assumption]. }
  2:{ left. apply K, keeps_validate_authorization; first [apply _ | assumption]. }
  2:{ left. apply K, keeps_get_authorization; first [apply _ | assumption]. }
  2:{ left. apply K, keeps_issue_certificate; first [apply _ | assumption]. }
  2:{ left. apply K, keeps_revoke_certificate; first [apply _ | assumption]. }
  rewrite perform_register_world, register_by_class.
  unfold registration_answered.
  destruct (class_of (self w)).
  - unfold Acme_register.
    pose proof (P1 (VStr "/acme/new-reg")
                  {[ "resource" := VStr "new-reg";
                     "contact" := VList [VStr ("mailto:" +:+ email)] ]} None w) as Es.
    destruct (Acme_post _ _ _ w) as [[e|r] w1] eqn:E; simpl in Es.
    { left. rewrite (bind_inl _ _ _ _ _ E). simpl. now rewrite Es. }
    rewrite (bind_inr _ _ _ _ _ E).
    destruct (Z.eqb_spec (status_code r) 201) as [E201|N201].
    2:{ left. destruct (status_code r =? 409); simpl; now rewrite Es. }
    destruct (Acme_post_account _ _ _ _ _ _ E) as [_ [a Ea]].
    assert (Ea1 : account (self w1) = Some a) by now rewrite Es.
    destruct (set_account_uri_some (headers r !! "Location") w1 a Ea1)
      as (w2 & Eset & Ea2 & _).
    right. exists email, r, a. do 2 (split; [eauto|]). do 2 (split; [assumption|]).
    rewrite (bind_inr _ _ _ _ _ Eset). unfold _json.
    destruct (json r); exact Ea2.
  - unfold AcmeV2_register.
    pose proof (url_from_directory_same_objects "newAccount" w) as [Es0 _].
    destruct (url_from_directory "newAccount" w) as [[e|u] w0] eqn:Eu; simpl in Es0.
    { left. rewrite (bind_inl _ _ _ _ _ Eu). simpl. now rewrite Es0. }
    rewrite (bind_inr _ _ _ _ _ Eu).
    pose proof (P2 u {[ "termsOfServiceAgreed" := VBool true;
                        "contact" := VList [VStr ("mailto:" +:+ email)] ]} None w0)
      as Es.
    destruct (AcmeV2_post _ _ _ w0) as [[e|r] w1] eqn:E; simpl in Es.
    { left. rewrite (bind_inl _ _ _ _ _ E). simpl. now rewrite Es, Es0. }
    rewrite (bind_inr _ _ _ _ _ E).
    destruct (Z.eqb_spec (status_code r) 201) as [E201|N201].
    2:{ left. destruct (status_code r =? 409); simpl; now rewrite Es, Es0. }
    destruct (AcmeV2_post_account _ _ _ _ _ _ E) as [_ [a Ea]].
    assert (Ea1 : account (self w1) = Some a) by now rewrite Es.
    destruct (set_account_uri_some (headers r !! "Location") w1 a Ea1)
      as (w2 & Eset & Ea2 & _).
    right. exists email, r, a. split; [reflexivity|].
    split; [now exists u, w0, w1|]. split; [assumption|].
    split; [now rewrite <- Es0|].
    rewrite (bind_inr _ _ _ _ _ Eset).
    pose proof (keeps_terms_from_directory same_self Q w2) as Et.
    destruct (terms_from_directory w2) as [[e|t] w3] eqn:Eterms; simpl in Et.
    { rewrite (bind_inl _ _ _ _ _ Eterms). simpl. now rewrite Et. }
    rewrite (bind_inr _ _ _ _ _ Eterms).
    unfold _json. destruct (json r); simpl; now rewrite Et.
Qed.

Lemma dict_truthy_nonempty (d : dict) : dict_truthy d = true <-> d <> ∅.
Proof.
  unfold dict_truthy. rewrite negb_true_iff, bool_decide_eq_false.
  now rewrite map_size_empty_iff.
Qed.

Lemma post_same_heap p body hdrs : keeps same_heap (post p body hdrs).
Proof. intros w. apply post_same_objects. Qed.

(** After [params] is settled, [update_registration] writes the key into
    that dictionary and touches no dictionary afterwards. *)
Lemma update_registration_writes l w :
  let rest :=
    (setitem l "resource" (VStr "reg");;;
     a <- self_account;;
     body <- deref l;;
     response <- post (str_or_none (uri a)) body None;;
     if starts_with_2 (status_code response) then ret true
     else raise (AcmeError (ErrResponse response))) in
  heap (snd (rest w))
    = <[l := <["resource" := VStr "reg"]> (default ∅ (heap w !! l))]> (heap w).
Proof.
  intros rest. unfold rest, bind at 1, setitem at 1.
  match goal with |- context [bind ?m ?k ?x] => set (w1 := x); set (tl := bind m k) end.
  assert (K : keeps same_heap tl).
  { unfold tl. pose proof post_same_heap. frame. }
  rewrite (K w1). reflexivity.
Qed.

(** C10 (amended): when [update_registration] is given a dictionary that is
    not empty, the key ['resource'] is set to ["reg"] in that very
    dictionary before the request is built, the dictionary so marked is the
    payload handed to [post], and after the call, whether it returned or
    raised, the dictionary of the caller holds the key and is otherwise as
    it was; an empty dictionary of the caller is left empty. *)
Theorem update_registration_marks_params l d w :
  heap w !! l = Some d ->
  let w' := snd (update_registration (Some l) w) in
  let marked := <["resource" := VStr "reg"]> d in
  (d <> ∅ -> heap w' !! l = Some marked) /\
  (d <> ∅ -> forall a, account (self w) = Some a ->
     update_registration (Some l) w
       = (response <- post (str_or_none (uri a)) marked None;;
          if starts_with_2 (status_code response) then ret true
          else raise (AcmeError (ErrResponse response)))
           {| self := self w; heap := <[l := marked]> (heap w);
              net := net w; log := log w |}) /\
  (d = ∅ -> heap w' !! l = Some ∅).
Proof.
  intros Hl w' marked. subst w' marked. unfold update_registration. split; [|split].
  2:{ intros Hd a Ea. apply dict_truthy_nonempty in Hd.
      assert (E : (d0 <- deref l;; if dict_truthy d0 then ret l else alloc ∅) w
                  = (inr l, w)).
      { unfold bind, deref. rewrite Hl. simpl. now rewrite Hd. }
      rewrite (bind_inr _ _ _ _ _ E).
      unfold bind at 1 2 3, setitem, self_account, deref. simpl.
      rewrite Ea, Hl. cbn [heap default]. rewrite lookup_insert_eq. reflexivity. }
  - intros Hd. apply dict_truthy_nonempty in Hd.
    assert (E : (d0 <- deref l;; if dict_truthy d0 then ret l else alloc ∅) w
                = (inr l, w)).
    { unfold bind, deref. rewrite Hl. simpl. now rewrite Hd. }
    rewrite (bind_inr _ _ _ _ _ E).
    pose proof (update_registration_writes l w) as W. cbv zeta in W.
    rewrite W, Hl. apply lookup_insert_eq.
  - intros ->.
    assert (E : (d0 <- deref l;; if dict_truthy d0 then ret l else alloc ∅) w
                = alloc ∅ w).
    { unfold bind, deref. rewrite Hl. reflexivity. }
    set (l' := fresh (dom (heap w))).
    set (w1 := {| self := self w; heap := <[l' := ∅]> (heap w);
                  net := net w; log := log w |}).
    assert (E' : (d0 <- deref l;; if dict_truthy d0 then ret l else alloc ∅) w
                 = (inr l', w1)) by (rewrite E; reflexivity).
    rewrite (bind_inr _ _ _ _ _ E').
    pose proof (update_registration_writes l' w1) as W. cbv zeta in W.
    rewrite W.
    assert (Hne : l' <> l).
    { intros El. apply (is_fresh (dom (heap w))). fold l'. rewrite El.
      apply elem_of_dom. now rewrite Hl. }
    rewrite lookup_insert_ne by exact Hne. simpl.
    now rewrite lookup_insert_ne.
Qed.

End Proofs.

(** ** The statements on the sample environment *)

Section Examples.
Import Sample.

(** C1, on a v1 server and on a v2 server that answer the registration
    with status 201 and a JSON body. *)
Lemma register_outcomes_witness :
  fst (Acme_register "alice@example.org"
         (world Acme (Some alice) [inr (directory_v1 "n1"); inr created_response]))
    = inr {| contents := VDict ∅;
             reg_uri := Some "https://ca.example/acme/reg/1";
             terms := VStr "https://ca.example/terms" |} /\
  fst (AcmeV2_register "alice@example.org"
         (world AcmeV2 (Some alice)
            [inr directory_v2; inr directory_v2; inr (new_nonce "n1");
             inr created_response; inr directory_v2]))
    = inr {| contents := VDict ∅;
             reg_uri := Some "https://ca.example/acme/reg/1";
             terms := VStr "https://ca.example/terms" |}.
Proof.
  split.
  - set (w0 := world Acme (Some alice) [inr (directory_v1 "n1"); inr created_response]).
    assert (E : Acme_post (VStr "/acme/new-reg")
                  {[ "resource" := VStr "new-reg";
                     "contact" := VList [VStr ("mailto:" +:+ "alice@example.org")] ]}
                  None w0
                = (inr created_response,
                   snd (Acme_post (VStr "/acme/new-reg")
                          {[ "resource" := VStr "new-reg";
                             "contact" :=
                               VList [VStr ("mailto:" +:+ "alice@example.org")] ]}
                          None w0)))
      by (vm_compute; reflexivity).
    destruct (proj1 (register_outcomes "alice@example.org") w0 _ _ E) as [H201 _].
    destruct (H201 eq_refl) as (a & w2 & _ & _ & _ & Hj & _).
    rewrite (Hj (VDict ∅) eq_refl). reflexivity.
  - set (w0 := world AcmeV2 (Some alice)
                 [inr directory_v2; inr directory_v2; inr (new_nonce "n1");
                  inr created_response; inr directory_v2]).
    assert (Eu : url_from_directory "newAccount" w0
                 = (inr (VStr "https://ca.example/acme/new-acct"),
                    snd (url_from_directory "newAccount" w0)))
      by (vm_compute; reflexivity).
    set (w1 := snd (url_from_directory "newAccount" w0)) in *.
    assert (E : AcmeV2_post (VStr "https://ca.example/acme/new-acct")
                  {[ "termsOfServiceAgreed" := VBool true;
                     "contact" := VList [VStr ("mailto:" +:+ "alice@example.org")] ]}
                  None w1
                = (inr created_response,
                   snd (AcmeV2_post (VStr "https://ca.example/acme/new-acct")
                          {[ "termsOfServiceAgreed" := VBool true;
                             "contact" :=
                               VList [VStr ("mailto:" +:+ "alice@example.org")] ]}
                          None w1)))
      by (vm_compute; reflexivity).
    destruct (proj2 (register_outcomes "alice@example.org") w0 _ _ _ _ Eu E)
      as [H201 _].
    destruct (H201 eq_refl) as (a & w2 & _ & Eset & _ & Ht).
    assert (Et : terms_from_directory w2
                 = (inr (VStr "https://ca.example/terms"),
                    snd (terms_from_directory w2))).
    { injection Eset as <-. vm_compute. reflexivity. }
    destruct (Ht _ _ Et) as (_ & Hj & _).
    rewrite (Hj (VDict ∅) eq_refl). reflexivity.
Defined.

(** C1 as the specification has it fails: the server answers the
    registration with status 201, and [register] raises. *)
Lemma register_201_may_raise :
  let w := world Acme (Some alice)
             [inr (directory_v1 "n1"); inr created_without_json] in
  fst (Acme_post (VStr "/acme/new-reg")
         {[ "resource" := VStr "new-reg";
            "contact" := VList [VStr ("mailto:" +:+ "alice@example.org")] ]}
         None w) = inr created_without_json /\
  status_code created_without_json = 201 /\
  fst (register "alice@example.org" w) = inl (AcmeError ErrInvalidJSON).
Proof. vm_compute. repeat split. Qed.

(** C2, on a registration followed by a revocation: the two signed requests
    carry the two nonces the server handed out, in that order. *)
Lemma signed_requests_use_fresh_nonces_witness :
  let w := world Acme (Some alice)
             [inr (directory_v1 "n1"); inr created_response;
              inr (directory_v1 "n2"); inr ok_response] in
  let l := log (run [Register "alice@example.org";
                     RevokeCertificate (VStr "(certificate)")] w) in
  fresh_nonces l /\ nonces_sent l = [Some (VStr "n1"); Some (VStr "n2")].
Proof.
  intros w l. split.
  - apply (signed_requests_use_fresh_nonces
             [Register "alice@example.org"; RevokeCertificate (VStr "(certificate)")] w).
    intros i x Hi. destruct i; discriminate Hi.
  - vm_compute. reflexivity.
Defined.

(** C3, on a v2 server whose directory lists an authorization endpoint:
    the v2 client sends the authorization request to the fixed v1 path, with
    the [resource] field of v1 in the payload. *)
Theorem v2_new_authorization_is_the_v1_request :
  let w := world AcmeV2 (Some alice_registered)
             [inr directory_v2; inr (new_nonce "n1"); inr not_found] in
  match last (log (snd (new_authorization "example.org" w))) with
  | Some (rq, res) =>
      method rq = POST /\
      target rq = "https://ca.example/acme/new-authz" /\
      (payload_of rq ≫= (.!! "resource")) = Some (VStr "new-authz") /\
      res = inr not_found
  | None => False
  end.
Proof. vm_compute. repeat split. Qed.

(** C4, on the answer the specification gives as its example. *)
Lemma issue_certificate_result_witness :
  fst (issue_certificate (VStr "(csr)")
         (world Acme (Some alice_registered)
            [inr (directory_v1 "n1"); inr issued_response; inr issuer_response]))
    = inr {| certificate := "(certificate)";
             location := Some "https://ca/cert/123";
             intermediate := Some "(issuer certificate)" |}.
Proof.
  set (w0 := world Acme (Some alice_registered)
               [inr (directory_v1 "n1"); inr issued_response; inr issuer_response]).
  assert (E : post (VStr "/acme/new-cert")
                {[ "resource" := VStr "new-cert"; "csr" := VStr "(csr)" ]}
                (Some {[ "Accept" := VStr "application/pkix-cert" ]}) w0
              = (inr issued_response,
                 snd (post (VStr "/acme/new-cert")
                        {[ "resource" := VStr "new-cert"; "csr" := VStr "(csr)" ]}
                        (Some {[ "Accept" := VStr "application/pkix-cert" ]}) w0)))
    by (vm_compute; reflexivity).
  destruct (issue_certificate_result (VStr "(csr)") w0 _ _ E) as [H201 _].
  set (w1 := snd (post (VStr "/acme/new-cert")
                    {[ "resource" := VStr "new-cert"; "csr" := VStr "(csr)" ]}
                    (Some {[ "Accept" := VStr "application/pkix-cert" ]}) w0)) in *.
  set (fetch := {| method := GET; target := "https://ca/issuer";
                   req_headers := DEFAULT_HEADERS; data := None;
                   req_verify := None |}).
  assert (Es : send fetch w1 = (inr issuer_response, snd (send fetch w1)))
    by (vm_compute; reflexivity).
  destruct (H201 eq_refl {| link_url := "https://ca/issuer" |} eq_refl _ _ Es)
    as [R _].
  rewrite R. reflexivity.
Defined.

(** C5, on a server that answers the revocation with status 200. *)
Lemma revoke_certificate_only_200_witness :
  fst (revoke_certificate (VStr "(certificate)")
         (world Acme (Some alice_registered)
            [inr (directory_v1 "n1"); inr ok_response])) = inr true.
Proof.
  set (w0 := world Acme (Some alice_registered)
               [inr (directory_v1 "n1"); inr ok_response]).
  assert (E : post (VStr "/acme/revoke-cert")
                {[ "resource" := VStr "revoke-cert";
                   "certificate" := VStr "(certificate)" ]} None w0
              = (inr ok_response,
                 snd (post (VStr "/acme/revoke-cert")
                        {[ "resource" := VStr "revoke-cert";
                           "certificate" := VStr "(certificate)" ]} None w0)))
    by (vm_compute; reflexivity).
  destruct (revoke_certificate_only_200 (VStr "(certificate)") w0 _ _ E) as [H200 _].
  rewrite (H200 eq_refl). reflexivity.
Defined.

(** C6, on the link the specification gives as its example. *)
Lemma path_of_absolute_url_witness :
  let c := new_client Acme None in
  path c (VStr "https://ca.example:443/acme/authz/9")
    = path c (VStr "/acme/authz/9") /\
  path c (VStr "https://ca.example:443/acme/authz/9")
    = inr "https://ca.example/acme/authz/9".
Proof.
  intros c.
  assert (Eq : urlparse_path "https://ca.example:443/acme/authz/9"
               = Some "/acme/authz/9") by (vm_compute; reflexivity).
  destruct (path_of_absolute_url c "https://ca.example:443/acme/authz/9"
              "/acme/authz/9" eq_refl Eq) as [Hjoin Hsame].
  split; [apply Hsame; reflexivity | rewrite Hjoin; vm_compute; reflexivity].
Defined.

(** C7, on the directory of the sample v2 server. *)
Lemma url_from_directory_is_lookup_witness :
  fst (url_from_directory "newAccount" (world AcmeV2 None [inr directory_v2]))
    = inr (VStr "https://ca.example/acme/new-acct").
Proof.
  set (w0 := world AcmeV2 None [inr directory_v2]).
  assert (E : AcmeV2_get_directory w0
              = (inr directory_v2, snd (AcmeV2_get_directory w0)))
    by (vm_compute; reflexivity).
  rewrite (url_from_directory_is_lookup "newAccount" w0 directory_v2 _
             {[ "newNonce" := VStr "https://ca.example/acme/new-nonce";
                "newAccount" := VStr "https://ca.example/acme/new-acct";
                "newAuthz" := VStr "https://ca.example/acme/v2/new-authz";
                "meta" := VDict {[ "termsOfService" :=
                                     VStr "https://ca.example/terms" ]} ]}
             (VStr "https://ca.example/acme/new-acct") E eq_refl eq_refl eq_refl).
  reflexivity.
Defined.

(** C8 as the specification has it fails: the server answers the
    registration with status 201 and a body that is not JSON; [register]
    raises, and the URI of the account has been set. *)
Lemma register_error_path_sets_uri :
  let w := world Acme (Some alice)
             [inr (directory_v1 "n1"); inr created_without_json] in
  fst (perform (Register "alice@example.org") w) = inl (AcmeError ErrInvalidJSON) /\
  account (self w) = Some {| key := "alice-key"; uri := None |} /\
  account (self (snd (perform (Register "alice@example.org") w)))
    = Some {| key := "alice-key"; uri := Some "https://ca.example/acme/reg/1" |}.
Proof. vm_compute. repeat split. Qed.

(** C9, on a v1 server that sends no nonce: the token is [None], and the
    signed request goes out with it. *)
Lemma absent_nonce_is_none_and_unchecked_witness :
  let w := world Acme (Some alice) [inr no_nonce; inr created_response] in
  fst (Acme_get_nonce w) = inr VNone /\
  nonces_sent (log (snd (Acme_post (VStr "/acme/new-reg") ∅ None w))) = [Some VNone].
Proof.
  intros w.
  assert (E : get (VStr "/directory") None w
              = (inr no_nonce, snd (get (VStr "/directory") None w)))
    by (vm_compute; reflexivity).
  destruct (proj1 absent_nonce_is_none_and_unchecked w _ _ E eq_refl) as [En Hpost].
  split; [now rewrite En|].
  rewrite (Hpost alice "https://ca.example/acme/new-reg" (VStr "/acme/new-reg") ∅ None
             eq_refl eq_refl).
  vm_compute. reflexivity.
Defined.

(** C10, on a dictionary with one entry. *)
Lemma update_registration_marks_params_witness :
  let d : dict := {[ "contact" := VList [VStr "mailto:alice@example.org"] ]} in
  let w := world_with_params d [inr (directory_v1 "n1"); inr ok_response] in
  heap (snd (update_registration (Some 1%positive) w)) !! 1%positive
    = Some (<["resource" := VStr "reg"]> d).
Proof.
  intros d w.
  apply (update_registration_marks_params 1%positive d w eq_refl).
  vm_compute. discriminate.
Defined.

(** C10 as the specification has it fails: the caller passes an empty
    dictionary; the call returns [True], and the dictionary of the caller is
    still empty. *)
Lemma update_registration_leaves_empty_params :
  let w := world_with_params ∅ [inr (directory_v1 "n1"); inr ok_response] in
  fst (update_registration (Some 1%positive) w) = inr true /\
  heap w !! 1%positive = Some ∅ /\
  heap (snd (update_registration (Some 1%positive) w)) !! 1%positive = Some ∅.
Proof. vm_compute. repeat split. Qed.

End Examples.

(** ** What the client sends, and what it does at the edges *)

Section Emission.
Context `{Crypto} `{Library} `{!Transport}.

Lemma same_settings_refl c : same_settings c c.
Proof. repeat split. Qed.

Lemma path_same_settings c0 c p : same_settings c0 c -> path c p = path c0 p.
Proof. intros (_ & Eu & _). unfold path. now rewrite Eu. Qed.

Lemma verify_kwarg_same_settings c0 c :
  same_settings c0 c -> verify_kwarg c = verify_kwarg c0.
Proof. intros (_ & _ & _ & Ev & _). unfold verify_kwarg. now rewrite Ev. Qed.

Section Rules.
Context (c0 : client) (P : Request -> Prop).

Lemma emits_quietly {A} (m : M A) (Q : A -> Prop) :
  (forall w, self (snd (m w)) = self w /\ log (snd (m w)) = log w) ->
  (forall w a, same_settings c0 (self w) -> fst (m w) = inr a -> Q a) ->
  emits c0 P m Q.
Proof.
  intros Hm Hq w Hs. destruct (Hm w) as [Es El]. split; [now rewrite Es|]. split.
  - exists []. split; [now rewrite El, app_nil_r | constructor].
  - intros a. now apply Hq.
Qed.

Lemma emits_ret {A} (a : A) (Q : A -> Prop) : Q a -> emits c0 P (ret a) Q.
Proof. intros Hq. apply emits_quietly; [now intros|]. now intros w a' _ [= <-]. Qed.

Lemma emits_raise {A} (e : exn) (Q : A -> Prop) : emits c0 P (raise e) Q.
Proof. apply emits_quietly; [now intros|]. intros w a _ E. discriminate E. Qed.

Lemma emits_lift {A} (r : exn + A) : emits c0 P (lift r) (fun a => r = inr a).
Proof. apply emits_quietly; [now intros|]. now intros w a _ E. Qed.

Lemma emits_get_self : emits c0 P get_self (same_settings c0).
Proof. apply emits_quietly; [now intros|]. now intros w a Hs [= <-]. Qed.

Lemma emits_self_account :
  emits c0 P self_account (fun a => key <$> account c0 = Some (key a)).
Proof.
  apply emits_quietly.
  - intros w. unfold self_account. now destruct (account (self w)).
  - intros w a (_ & _ & _ & _ & Ek). unfold self_account.
    destruct (account (self w)) as [a'|]; [|discriminate].
    intros [= <-]. now rewrite <- Ek.
Qed.

Lemma emits_deref l : emits c0 P (deref l) (fun _ => True).
Proof. apply emits_quietly; now intros. Qed.

Lemma emits_alloc d : emits c0 P (alloc d) (fun _ => True).
Proof. apply emits_quietly; now intros. Qed.

Lemma emits_setitem l k v : emits c0 P (setitem l k v) (fun _ => True).
Proof. apply emits_quietly; now intros. Qed.

Lemma emits_set_account_uri u : emits c0 P (set_account_uri u) (fun _ => True).
Proof.
  intros w Hs. unfold set_account_uri.
  destruct (account (self w)) as [a|] eqn:Ea; simpl.
  - split; [|split; [|easy]].
    + destruct Hs as (E1 & E2 & E3 & E4 & E5). repeat split; try assumption.
      simpl. now rewrite <- E5, Ea.
    + exists []. split; [now rewrite app_nil_r | constructor].
  - split; [exact Hs|]. split; [|easy].
    exists []. split; [now rewrite app_nil_r | constructor].
Qed.

Lemma emits_send rq : P rq -> emits c0 P (send rq) (fun _ => True).
Proof.
  intros Hp w Hs. split; [|split; [|easy]].
  - unfold send. now destruct (requests_request (net w) rq).
  - exists [(rq, fst (send rq w))]. split; [apply send_log|]. now repeat constructor.
Qed.

Lemma emits_bind {A B} (m : M A) (k : A -> M B) (Q : A -> Prop) (Q' : B -> Prop) :
  emits c0 P m Q -> (forall a, Q a -> emits c0 P (k a) Q') ->
  emits c0 P (x <- m;; k x) Q'.
Proof.
  intros Hm Hk w Hs. destruct (Hm w Hs) as (Hs1 & (l1 & L1 & F1) & Hq).
  unfold bind. destruct (m w) as [[e|a] w1]; simpl in *.
  - split; [exact Hs1|]. split; [now exists l1|]. intros a E. discriminate E.
  - destruct (Hk a (Hq a eq_refl) w1 Hs1) as (Hs2 & (l2 & L2 & F2) & Hq').
    split; [exact Hs2|]. split; [|exact Hq'].
    exists (l1 ++ l2). split; [now rewrite L2, L1, app_assoc | now apply Forall_app].
Qed.

Lemma emits_weaken {A} (m : M A) (Q Q' : A -> Prop) :
  emits c0 P m Q -> (forall a, Q a -> Q' a) -> emits c0 P m Q'.
Proof.
  intros Hm Hq w Hs. destruct (Hm w Hs) as (Hs1 & Hl & Hq1).
  split; [exact Hs1|]. split; [exact Hl|]. intros a E. apply Hq, Hq1, E.
Qed.

End Rules.

Create HintDb emits.

#[local] Hint Resolve emits_raise emits_deref emits_alloc emits_setitem
  emits_set_account_uri : emits.

(** Splits a computation along its binds and branches. *)
Ltac emit :=
  repeat match goal with
    | |- emits _ _ (bind _ _) _ => eapply emits_bind; [ | intros ? ? ]
    | |- emits _ _ (match ?x with _ => _ end) _ => destruct x eqn:?
    | |- emits _ _ (ret _) (fun _ => True) => now apply emits_ret
    | |- emits _ _ (raise _) _ => apply emits_raise
    | |- emits _ _ _ _ => solve [ eauto with emits ]
    end.

(** *** Every request the client sends is one of [client_request] *)

Section Sent.
Context (c0 : client).
Abbreviation sent := (emits c0 (client_request c0)).

Lemma sent_get p : sent (get p None) (fun _ => True).
Proof.
  unfold get. eapply emits_bind; [apply emits_get_self|]. intros c Hc.
  eapply emits_bind; [apply emits_lift|]. intros t Ht.
  apply emits_send. rewrite (verify_kwarg_same_settings c0 c Hc).
  rewrite (path_same_settings c0 c p Hc) in Ht. now apply (req_get c0 p t).
Qed.

Lemma sent_head p :
  sent (head p (Some {[ "resource" := VStr "new-reg"; "payload" := VNone ]}))
       (fun _ => True).
Proof.
  unfold head. eapply emits_bind; [apply emits_get_self|]. intros c Hc.
  eapply emits_bind; [apply emits_lift|]. intros t Ht.
  apply emits_send. rewrite (verify_kwarg_same_settings c0 c Hc).
  rewrite (path_same_settings c0 c p Hc) in Ht. now apply (req_nonce c0 p t).
Qed.

Lemma sent_requests_get u : sent (requests_get u DEFAULT_HEADERS) (fun _ => True).
Proof. unfold requests_get. apply emits_send. apply req_chain. Qed.

Hint Resolve sent_get sent_head sent_requests_get : emits.

Lemma sent_response_json r : sent (response_json r) (fun _ => True).
Proof. unfold response_json. emit. Qed.

Lemma sent_json r : sent (_json r) (fun _ => True).
Proof. unfold _json. emit. Qed.

Lemma sent_getitem v k : sent (getitem v k) (fun _ => True).
Proof. unfold getitem. emit. Qed.

Lemma sent_contains k v : sent (contains k v) (fun _ => True).
Proof. unfold contains. emit. Qed.

Hint Resolve sent_response_json sent_json sent_getitem sent_contains : emits.

Lemma sent_AcmeV2_get_directory : sent AcmeV2_get_directory (fun _ => True).
Proof.
  unfold AcmeV2_get_directory. eapply emits_bind; [apply emits_get_self|].
  intros c _. apply sent_get.
Qed.

Hint Resolve sent_AcmeV2_get_directory : emits.

Lemma sent_url_from_directory what : sent (url_from_directory what) (fun _ => True).
Proof. unfold url_from_directory. emit. Qed.

Lemma sent_terms_from_directory : sent terms_from_directory (fun _ => True).
Proof. unfold terms_from_directory. emit. Qed.

Hint Resolve sent_url_from_directory sent_terms_from_directory : emits.

Lemma sent_Acme_get_nonce : sent Acme_get_nonce (fun _ => True).
Proof. unfold Acme_get_nonce. emit. Qed.

Lemma sent_AcmeV2_get_nonce : sent AcmeV2_get_nonce (fun _ => True).
Proof. unfold AcmeV2_get_nonce. emit. Qed.

Hint Resolve sent_Acme_get_nonce sent_AcmeV2_get_nonce : emits.

Lemma sent_Acme_get_headers :
  sent Acme_get_headers
       (fun hp => exists k n, key <$> account c0 = Some k /\
                    hp = (generate_header k, <["nonce" := n]> (generate_header k))).
Proof.
  unfold Acme_get_headers. eapply emits_bind; [apply emits_self_account|].
  intros a Ha. cbv zeta. eapply emits_bind; [apply sent_Acme_get_nonce|].
  intros n _. apply emits_ret. now exists (key a), n.
Qed.

Lemma sent_AcmeV2_get_headers u :
  sent (AcmeV2_get_headers (Some u))
       (fun pr => exists k n, key <$> account c0 = Some k /\
                    pr = <["url" := VStr u]>
                           (<["nonce" := n]> (generate_header k))).
Proof.
  unfold AcmeV2_get_headers. eapply emits_bind; [apply emits_self_account|].
  intros a Ha. cbv zeta. eapply emits_bind; [apply sent_AcmeV2_get_nonce|].
  intros n _. apply emits_ret. now exists (key a), n.
Qed.

Lemma sent_Acme_post p body hdrs :
  class_of c0 = Acme -> own_headers hdrs ->
  sent (Acme_post p body hdrs) (fun _ => True).
Proof.
  intros Hcls Hh. unfold Acme_post. cbv zeta.
  eapply emits_bind; [apply sent_Acme_get_headers|]. intros hp (k & n & Hk & ->).
  eapply emits_bind; [apply emits_self_account|]. intros a Ha.
  eapply emits_bind; [apply emits_get_self|]. intros c Hc.
  eapply emits_bind; [apply emits_lift|]. intros t Ht.
  apply emits_send. rewrite (verify_kwarg_same_settings c0 c Hc).
  rewrite (path_same_settings c0 c p Hc) in Ht.
  assert (key a = k) as -> by congruence.
  now apply (req_v1 c0 k p t hdrs body n).
Qed.

Lemma sent_AcmeV2_post p body hdrs :
  class_of c0 = AcmeV2 -> own_headers hdrs ->
  sent (AcmeV2_post p body hdrs) (fun _ => True).
Proof.
  intros Hcls Hh. unfold AcmeV2_post. cbv zeta.
  eapply emits_bind; [apply emits_get_self|]. intros c Hc.
  eapply emits_bind; [apply emits_lift|]. intros u Hu.
  eapply emits_bind; [apply sent_AcmeV2_get_headers|]. intros pr (k & n & Hk & ->).
  eapply emits_bind; [apply emits_self_account|]. intros a Ha.
  eapply emits_bind; [apply emits_get_self|]. intros c' Hc'.
  eapply emits_bind; [apply emits_lift|]. intros t Ht.
  apply emits_send. rewrite (verify_kwarg_same_settings c0 c' Hc').
  rewrite (path_same_settings c0 c p Hc) in Hu.
  rewrite (path_same_settings c0 c' p Hc') in Ht.
  assert (u = t) as -> by congruence.
  assert (key a = k) as -> by congruence.
  now apply (req_v2 c0 k p t hdrs body n).
Qed.

Lemma sent_post p body hdrs :
  own_headers hdrs -> sent (post p body hdrs) (fun _ => True).
Proof.
  intros Hh. unfold post. eapply emits_bind; [apply emits_get_self|].
  intros c (Hcls & _). destruct (class_of c) eqn:Ec.
  - apply sent_Acme_post; [congruence | exact Hh].
  - apply sent_AcmeV2_post; [congruence | exact Hh].
Qed.

Lemma sent_post_none p body : sent (post p body None) (fun _ => True).
Proof. apply sent_post. now left. Qed.

Hint Resolve sent_post_none : emits.

Lemma sent_register email : sent (register email) (fun _ => True).
Proof.
  unfold register. eapply emits_bind; [apply emits_get_self|].
  intros c (Hcls & _). destruct (class_of c) eqn:Ec.
  - unfold Acme_register.
    eapply emits_bind; [apply sent_Acme_post; [congruence | now left]|].
    intros r _. emit.
  - unfold AcmeV2_register. cbv zeta.
    eapply emits_bind; [apply sent_url_from_directory|]. intros u _.
    eapply emits_bind; [apply sent_AcmeV2_post; [congruence | now left]|].
    intros r _. emit.
Qed.

Lemma sent_get_registration : sent get_registration (fun _ => True).
Proof.
  unfold get_registration. eapply emits_bind; [apply emits_self_account|].
  intros a _. emit.
Qed.

Lemma sent_update_registration params :
  sent (update_registration params) (fun _ => True).
Proof.
  unfold update_registration.
  eapply emits_bind with (Q := fun _ => True).
  { destruct params as [l|]; [|apply emits_alloc].
    eapply emits_bind; [apply emits_deref|]. intros d _.
    destruct (dict_truthy d); [now apply emits_ret | apply emits_alloc]. }
  intros l _. eapply emits_bind; [apply emits_setitem|]. intros _ _.
  eapply emits_bind; [apply emits_self_account|]. intros a _. emit.
Qed.

Lemma sent_new_authorization domain :
  sent (new_authorization domain) (fun _ => True).
Proof. unfold new_authorization. emit. Qed.

Lemma sent_validate_authorization uri _type ka :
  sent (validate_authorization uri _type ka) (fun _ => True).
Proof. unfold validate_authorization. emit. Qed.

Lemma sent_get_authorization uri : sent (get_authorization uri) (fun _ => True).
Proof. unfold get_authorization. emit. Qed.

Lemma sent_issue_certificate csr : sent (issue_certificate csr) (fun _ => True).
Proof.
  unfold issue_certificate. cbv zeta.
  eapply emits_bind; [apply sent_post; now right|]. intros r _.
  destruct (status_code r =? 201); [|apply emits_raise].
  eapply emits_bind with (Q := fun _ => True); [|intros; now apply emits_ret].
  destruct (links r !! "up"); [|now apply emits_ret].
  eapply emits_bind; [apply sent_requests_get|]. intros; now apply emits_ret.
Qed.

Lemma sent_revoke_certificate cert : sent (revoke_certificate cert) (fun _ => True).
Proof. unfold revoke_certificate. emit. Qed.

Lemma sent_perform op : sent (perform op) (fun _ => True).
Proof.
  destruct op; unfold perform;
    (eapply emits_bind; [|intros; now apply emits_ret]).
  - apply sent_register.
  - apply sent_get_registration.
  - apply sent_update_registration.
  - apply sent_new_authorization.
  - apply sent_validate_authorization.
  - apply sent_get_authorization.
  - apply sent_issue_certificate.
  - apply sent_revoke_certificate.
Qed.

Lemma sent_run ops w :
  same_settings c0 (self w) ->
  same_settings c0 (self (run ops w)) /\
  exists l, log (run ops w) = log w ++ l /\
            Forall (fun x => client_request c0 (fst x)) l.
Proof.
  revert w. induction ops as [|op ops IH]; intros w Hs; simpl.
  - split; [exact Hs|]. exists []. split; [now rewrite app_nil_r | constructor].
  - destruct (sent_perform op w Hs) as (Hs1 & (l1 & L1 & F1) & _).
    destruct (IH _ Hs1) as (Hs2 & l2 & L2 & F2).
    split; [exact Hs2|]. exists (l1 ++ l2).
    split; [now rewrite L2, L1, app_assoc | now apply Forall_app].
Qed.

End Sent.

(** Along any sequence of calls, what is added to the log are requests of
    the client as it was at the start. *)
Lemma run_requests ops w :
  exists l, log (run ops w) = log w ++ l /\
            Forall (fun x => client_request (self w) (fst x)) l.
Proof. apply (sent_run (self w) ops w), same_settings_refl. Qed.

Lemma run_requests_have (R : client -> Request -> Prop) ops w :
  (forall c rq, client_request c rq -> R c rq) ->
  exists l, log (run ops w) = log w ++ l /\
            Forall (fun x => R (self w) (fst x)) l.
Proof.
  intros HR. destruct (run_requests ops w) as (l & L & F).
  exists l. split; [exact L|]. eapply Forall_impl; [exact F|].
  intros x. apply HR.
Qed.

Lemma own_headers_truthy hdrs h :
  own_headers hdrs -> hdrs = Some h -> dict_truthy h = true.
Proof. intros [->| ->]; [discriminate|]. now intros [= <-]. Qed.

Lemma update_own_lookup hdrs base k :
  own_headers hdrs -> k <> "Accept" -> update hdrs base !! k = base !! k.
Proof.
  intros Hh Hk. unfold update. destruct hdrs as [h|]; [|reflexivity].
  rewrite (own_headers_truthy _ h Hh eq_refl).
  destruct Hh as [E|E]; [discriminate|]. injection E as ->.
  rewrite lookup_union_r; [reflexivity|]. now apply lookup_singleton_ne.
Qed.

Lemma nonce_headers_lookup base k :
  k <> "resource" -> k <> "payload" ->
  update (Some {[ "resource" := VStr "new-reg"; "payload" := VNone ]}) base !! k
    = base !! k.
Proof.
  intros Hr Hp. unfold update.
  replace (dict_truthy _) with true by reflexivity.
  rewrite lookup_union_r; [reflexivity|].
  rewrite lookup_insert_ne by congruence. now apply lookup_singleton_ne.
Qed.

(** X1: along any sequence of calls, a client whose [verify] setting is
    false as Python sees it ([None], [False], an empty string, zero) passes
    no [verify] keyword to any request, so that [verify=False] leaves the
    verification of certificates on; with a true setting every HEAD and
    every POST carries it; the fetch of the issuer chain never does. *)
Theorem verify_passed_only_when_true ops w :
  exists l, log (run ops w) = log w ++ l /\
    Forall (fun x =>
              (truthy (verify (self w)) = false -> req_verify (fst x) = None) /\
              (method (fst x) <> GET ->
                 truthy (verify (self w)) = true ->
                 req_verify (fst x) = Some (verify (self w))) /\
              (is_Some (req_verify (fst x)) ->
                 req_verify (fst x) = Some (verify (self w)))) l.
Proof.
  apply (run_requests_have
           (fun c rq =>
              (truthy (verify c) = false -> req_verify rq = None) /\
              (method rq <> GET -> truthy (verify c) = true ->
                 req_verify rq = Some (verify c)) /\
              (is_Some (req_verify rq) -> req_verify rq = Some (verify c)))).
  intros c rq Hrq.
  assert (V : forall rq', req_verify rq' = verify_kwarg c ->
                (truthy (verify c) = false -> req_verify rq' = None) /\
                (method rq' <> GET -> truthy (verify c) = true ->
                   req_verify rq' = Some (verify c)) /\
                (is_Some (req_verify rq') -> req_verify rq' = Some (verify c))).
  { intros rq' ->. unfold verify_kwarg.
    destruct (truthy (verify c)); repeat split; try easy.
    intros [v Hv]. discriminate Hv. }
  destruct Hrq; try (apply V; reflexivity).
  simpl. repeat split; try easy. intros [v Hv]. discriminate Hv.
Qed.

(** X2: along any sequence of calls, every request names the product in
    [User-Agent]; a body signed the v1 way is sent as [application/json],
    a body signed the v2 way as [application/jose+json], and a request
    without a body has no [Content-Type]. *)
Theorem content_type_follows_signature ops w :
  exists l, log (run ops w) = log w ++ l /\
    Forall (fun x =>
              req_headers (fst x) !! "User-Agent"
                = Some (VStr ("automatoes " +:+ get_version +:+
                              " (https://candango.org/p/automatoes)")) /\
              req_headers (fst x) !! "Content-Type"
                = match data (fst x) with
                  | Some (sign_request _ _ _ _) => Some (VStr "application/json")
                  | Some (sign_request_v2 _ _ _) => Some (VStr "application/jose+json")
                  | None => None
                  end) l.
Proof.
  apply (run_requests_have
           (fun c rq =>
              req_headers rq !! "User-Agent"
                = Some (VStr ("automatoes " +:+ get_version +:+
                              " (https://candango.org/p/automatoes)")) /\
              req_headers rq !! "Content-Type"
                = match data rq with
                  | Some (sign_request _ _ _ _) => Some (VStr "application/json")
                  | Some (sign_request_v2 _ _ _) => Some (VStr "application/jose+json")
                  | None => None
                  end)).
  intros c rq Hrq.
  assert (D : DEFAULT_HEADERS !! "Content-Type" = None)
    by now apply lookup_singleton_ne.
  assert (U : DEFAULT_HEADERS !! "User-Agent"
              = Some (VStr ("automatoes " +:+ get_version +:+
                            " (https://candango.org/p/automatoes)")))
    by apply lookup_singleton_eq.
  destruct Hrq;
    unfold get_request, nonce_request, chain_request, v1_request, v2_request;
    cbn [req_headers data].
  - now split.
  - now rewrite !nonce_headers_lookup.
  - now split.
  - rewrite !update_own_lookup by easy.
    now rewrite lookup_insert_ne, lookup_insert_eq.
  - rewrite !update_own_lookup by easy.
    now rewrite lookup_insert_ne, lookup_insert_eq.
Qed.

(** X3: along any sequence of calls, a request has a body exactly when it
    is a POST, and the body of a POST is signed in the way of the class of
    the client, with the key of its account and the header made from that
    key. *)
Theorem every_post_is_signed_by_the_account ops w :
  exists l, log (run ops w) = log w ++ l /\
    Forall (fun x =>
              match data (fst x) with
              | Some (sign_request k header _ _) =>
                  method (fst x) = POST /\ class_of (self w) = Acme /\
                  key <$> account (self w) = Some k /\
                  header = generate_header k
              | Some (sign_request_v2 k _ _) =>
                  method (fst x) = POST /\ class_of (self w) = AcmeV2 /\
                  key <$> account (self w) = Some k
              | None => method (fst x) <> POST
              end) l.
Proof.
  apply (run_requests_have
           (fun c rq =>
              match data rq with
              | Some (sign_request k header _ _) =>
                  method rq = POST /\ class_of c = Acme /\
                  key <$> account c = Some k /\ header = generate_header k
              | Some (sign_request_v2 k _ _) =>
                  method rq = POST /\ class_of c = AcmeV2 /\
                  key <$> account c = Some k
              | None => method rq <> POST
              end)).
  intros c rq Hrq. destruct Hrq; simpl; easy.
Qed.

(** X4: along any sequence of calls, the protected header of a signed
    request is the header made from the key with the nonce added and, for a
    v2 client, with [url] set to the very target the request is sent to. *)
Theorem protected_header_names_the_target ops w :
  exists l, log (run ops w) = log w ++ l /\
    Forall (fun x =>
              match data (fst x) with
              | Some (sign_request k _ protected _) =>
                  exists n, protected = <["nonce" := n]> (generate_header k)
              | Some (sign_request_v2 k protected _) =>
                  (exists n, protected
                             = <["url" := VStr (target (fst x))]>
                                 (<["nonce" := n]> (generate_header k))) /\
                  protected !! "url" = Some (VStr (target (fst x)))
              | None => True
              end) l.
Proof.
  apply (run_requests_have
           (fun c rq =>
              match data rq with
              | Some (sign_request k _ protected _) =>
                  exists n, protected = <["nonce" := n]> (generate_header k)
              | Some (sign_request_v2 k protected _) =>
                  (exists n, protected
                             = <["url" := VStr (target rq)]>
                                 (<["nonce" := n]> (generate_header k))) /\
                  protected !! "url" = Some (VStr (target rq))
              | None => True
              end)).
  intros c rq Hrq. destruct Hrq; simpl; try easy.
  - now exists n.
  - split; [now exists n | apply lookup_insert_eq].
Qed.

(** *** The directory *)

(** X5: once the directory fetch of the v2 client has been answered,
    [url_from_directory] returns [None] for a status other than 200, and on
    status 200 raises [ValueError] when the body is not JSON, [TypeError]
    when the JSON is not an object and [KeyError] when the object lacks the
    name; none of these is an [AcmeError]. *)
Theorem url_from_directory_failures what w r w1 :
  AcmeV2_get_directory w = (inr r, w1) ->
  (status_code r <> 200 -> url_from_directory what w = (inr VNone, w1)) /\
  (status_code r = 200 -> json r = None ->
     url_from_directory what w = (inl ValueError, w1)) /\
  (status_code r = 200 -> forall j, json r = Some j ->
     (forall d, j <> VDict d) ->
     url_from_directory what w = (inl TypeError, w1)) /\
  (status_code r = 200 -> forall d, json r = Some (VDict d) ->
     d !! what = None ->
     url_from_directory what w = (inl (KeyError what), w1)).
Proof.
  intros E. unfold url_from_directory. rewrite (bind_inr _ _ _ _ _ E).
  split; [|split; [|split]].
  - intros N. now destruct (Z.eqb_spec (status_code r) 200).
  - intros -> Hj. simpl. unfold response_json, bind. now rewrite Hj.
  - intros -> j Hj Hd. simpl. unfold response_json, bind. rewrite Hj. simpl.
    destruct j; try reflexivity. now destruct (Hd d).
  - intros -> d Hj Hd. simpl. unfold response_json, bind. rewrite Hj. simpl.
    now rewrite Hd.
Qed.

(** X6: once the directory fetch has been answered with status 200 and a
    JSON object, [terms_from_directory] returns [None] when the object has
    no [meta], returns what [meta] holds under [termsOfService], or [None]
    when it holds nothing there, when [meta] is an object, and raises
    [TypeError] when [meta] is [null], a boolean or a number; for a status
    other than 200 it returns [None]. *)
Theorem terms_from_directory_cases w r w1 :
  AcmeV2_get_directory w = (inr r, w1) ->
  (status_code r <> 200 -> terms_from_directory w = (inr VNone, w1)) /\
  (status_code r = 200 -> forall d, json r = Some (VDict d) ->
     terms_from_directory w
       = (match d !! "meta" with
          | None => inr VNone
          | Some (VDict meta) => inr (default VNone (meta !! "termsOfService"))
          | Some (VList l) =>
              if existsb (fun x => match x with
                                   | VStr s => String.eqb s "termsOfService"
                                   | _ => false
                                   end) l
              then inl TypeError else inr VNone
          | Some (VStr s) =>
              if str_contains "termsOfService" s then inl TypeError else inr VNone
          | Some _ => inl TypeError
          end, w1)).
Proof.
  intros E. unfold terms_from_directory. rewrite (bind_inr _ _ _ _ _ E). split.
  - intros N. now destruct (Z.eqb_spec (status_code r) 200).
  - intros -> d Hj. simpl. unfold response_json, bind. rewrite Hj. simpl.
    destruct (d !! "meta") as [meta|] eqn:Em; simpl.
    2:{ reflexivity. }
    destruct meta as [|b|z|s|l|m]; simpl; try reflexivity.
    + now destruct (str_contains "termsOfService" s).
    + now destruct (existsb _ l).
    + now destruct (m !! "termsOfService") as [t|] eqn:Et.
Qed.

(** X7: when the directory of the v2 server is answered with a status other
    than 200, [AcmeV2.register] raises [AttributeError], not an [AcmeError]:
    the missing URL reaches [path] as [None]; nothing but the directory
    fetch has gone out, and the client object is as it was. *)
Theorem v2_register_without_directory email w r w1 :
  AcmeV2_get_directory w = (inr r, w1) ->
  status_code r <> 200 ->
  AcmeV2_register email w = (inl AttributeError, w1) /\
  self w1 = self w /\
  exists rq, method rq = GET /\ log w1 = log w ++ [(rq, inr r)].
Proof.
  intros E N.
  assert (Eu : url_from_directory "newAccount" w = (inr VNone, w1)).
  { unfold url_from_directory. rewrite (bind_inr _ _ _ _ _ E).
    now destruct (Z.eqb_spec (status_code r) 200). }
  split; [|split].
  - unfold AcmeV2_register. rewrite (bind_inr _ _ _ _ _ Eu).
    unfold AcmeV2_post, bind at 1 2, get_self, lift. reflexivity.
  - pose proof (url_from_directory_same_objects "newAccount" w) as [Es _].
    now rewrite Eu in Es.
  - unfold AcmeV2_get_directory in E.
    unfold bind at 1, get_self in E. now apply get_answered in E.
Qed.

End Emission.

Section Edges.
Context `{Crypto} `{Library} `{!Transport}.

#[local] Existing Instance same_heap_preorder.

(** *** A client without an account, an account without a URI *)

Lemma Acme_post_no_account p body hdrs w :
  account (self w) = None -> Acme_post p body hdrs w = (inl AttributeError, w).
Proof.
  intros Ea. unfold Acme_post, Acme_get_headers, bind, self_account.
  now rewrite Ea.
Qed.

(** X8: on a v1 client that has no account, every operation that signs a
    request raises [AttributeError] without a single exchange with the
    server; the client object is as it was. *)
Theorem v1_without_account_sends_nothing op w :
  class_of (self w) = Acme ->
  account (self w) = None ->
  (forall uri, op <> GetAuthorization uri) ->
  fst (perform op w) = inl AttributeError /\
  log (snd (perform op w)) = log w /\
  net (snd (perform op w)) = net w /\
  self (snd (perform op w)) = self w.
Proof.
  intros Ec Ea Hop.
  assert (P : forall p body hdrs, post p body hdrs w = (inl AttributeError, w)).
  { intros. unfold post, bind at 1, get_self. rewrite Ec.
    now apply Acme_post_no_account. }
  destruct op as [email| |params|domain|uri _type ka|uri|csr|cert];
    unfold perform.
  - assert (E : register email w = (inl AttributeError, w)).
    { rewrite register_by_class, Ec. unfold Acme_register.
      now rewrite (bind_inl _ _ _ _ _ (Acme_post_no_account _ _ _ w Ea)). }
    now rewrite (bind_inl _ _ _ _ _ E).
  - assert (E : get_registration w = (inl AttributeError, w)).
    { unfold get_registration, bind, self_account. now rewrite Ea. }
    now rewrite (bind_inl _ _ _ _ _ E).
  - assert (E : exists w', update_registration params w = (inl AttributeError, w') /\
                  log w' = log w /\ net w' = net w /\ self w' = self w).
    { unfold update_registration.
      match goal with |- context [bind ?m _ w] => set (choose := m) end.
      assert (Hc : exists l w0, choose w = (inr l, w0) /\ log w0 = log w /\
                     net w0 = net w /\ self w0 = self w).
      { unfold choose. destruct params as [l|]; [|now eexists _, _].
        unfold bind, deref. destruct (dict_truthy _); now eexists _, _. }
      destruct Hc as (l & w0 & E0 & L0 & N0 & S0).
      rewrite (bind_inr _ _ _ _ _ E0).
      eexists. unfold bind at 1, setitem at 1.
      split; [unfold bind at 1, self_account; cbn [self]; rewrite S0, Ea; reflexivity|].
      now cbn [log net self]. }
    destruct E as (w' & E & L & N & S).
    now rewrite (bind_inl _ _ _ _ _ E).
  - unfold new_authorization. now rewrite (bind_inl _ _ _ _ _ (bind_inl _ _ _ _ _ (P _ _ _))).
  - unfold validate_authorization.
    now rewrite (bind_inl _ _ _ _ _ (bind_inl _ _ _ _ _ (P _ _ _))).
  - now destruct (Hop uri).
  - unfold issue_certificate.
    now rewrite (bind_inl _ _ _ _ _ (bind_inl _ _ _ _ _ (P _ _ _))).
  - unfold revoke_certificate.
    now rewrite (bind_inl _ _ _ _ _ (bind_inl _ _ _ _ _ (P _ _ _))).
Qed.

(** X9: [get_registration] for an account that has no URI yet raises
    [AttributeError] in both classes, at different moments: the v1 client
    has fetched a nonce by then and sends no signed request, the v2 client
    resolves the path first and has sent nothing at all. *)
Theorem get_registration_without_uri w a :
  account (self w) = Some a -> uri a = None ->
  (class_of (self w) = Acme ->
     forall n w1, Acme_get_nonce w = (inr n, w1) ->
       get_registration w = (inl AttributeError, w1)) /\
  (class_of (self w) = AcmeV2 ->
     get_registration w = (inl AttributeError, w)).
Proof.
  intros Ea Eu. split.
  - intros Ec n w1 En.
    pose proof (Acme_get_nonce_same_objects w) as [Es _]. rewrite En in Es. simpl in Es.
    unfold get_registration, bind at 1, self_account. rewrite Ea, Eu. simpl.
    assert (E : post VNone {[ "resource" := VStr "reg" ]} None w
                = (inl AttributeError, w1)).
    { unfold post, bind at 1, get_self. rewrite Ec.
      unfold Acme_post, Acme_get_headers, bind, self_account, get_self, lift, ret.
      rewrite Ea, En. cbv beta iota. rewrite Es, Ea. reflexivity. }
    now rewrite (bind_inl _ _ _ _ _ E).
  - intros Ec.
    unfold get_registration, bind at 1, self_account. rewrite Ea, Eu. simpl.
    assert (E : post VNone {[ "resource" := VStr "reg" ]} None w
                = (inl AttributeError, w)).
    { unfold post, bind at 1, get_self. rewrite Ec. reflexivity. }
    now rewrite (bind_inl _ _ _ _ _ E).
Qed.

(** *** Status codes *)

Lemma starts_with_2_three_digits n :
  three_digits n -> starts_with_2 n = ((200 <=? n) && (n <? 300)).
Proof.
  intros [Hlo Hhi].
  assert (A : agree_from 100 900 = true) by (vm_compute; reflexivity).
  unfold agree_from in A. rewrite forallb_forall in A.
  apply Bool.eqb_prop, A, list_elem_of_In, elem_of_seqZ. lia.
Qed.

(** X10: once the server has answered the signed request of
    [validate_authorization] with a three-digit status, the call returns
    [True] for every status from 200 to 299 and raises [AcmeError] with the
    response for every other one. *)
Theorem validate_authorization_accepts_2xx uri _type ka w r w1 :
  post (VStr uri)
       {[ "resource" := VStr "challenge"; "type" := VStr _type;
          "keyAuthorization" := VStr ka ]} None w = (inr r, w1) ->
  three_digits (status_code r) ->
  (200 <= status_code r <= 299 ->
     validate_authorization uri _type ka w = (inr true, w1)) /\
  (~ 200 <= status_code r <= 299 ->
     validate_authorization uri _type ka w
       = (inl (AcmeError (ErrResponse r)), w1)).
Proof.
  intros E H3. unfold validate_authorization.
  rewrite (bind_inr _ _ _ _ _ E), (starts_with_2_three_digits _ H3). split.
  - intros [Hlo Hhi].
    replace (200 <=? status_code r) with true by (symmetry; apply Z.leb_le; lia).
    replace (status_code r <? 300) with true by (symmetry; apply Z.ltb_lt; lia).
    reflexivity.
  - intros N. destruct (Z.leb_spec 200 (status_code r)); [|reflexivity].
    destruct (Z.ltb_spec (status_code r) 300); [lia|reflexivity].
Qed.

(** X11: once the server has answered the signed request of
    [get_registration] with a three-digit status, the call returns the JSON
    of the body for every status from 200 to 299, raises the [AcmeError] of
    an invalid body when such an answer is not JSON, and raises [AcmeError]
    with the response for every other status. *)
Theorem get_registration_outcomes w a r w1 :
  account (self w) = Some a ->
  post (str_or_none (uri a)) {[ "resource" := VStr "reg" ]} None w = (inr r, w1) ->
  three_digits (status_code r) ->
  (200 <= status_code r <= 299 ->
     get_registration w
       = (match json r with
          | Some j => inr j
          | None => inl (AcmeError ErrInvalidJSON)
          end, w1)) /\
  (~ 200 <= status_code r <= 299 ->
     get_registration w = (inl (AcmeError (ErrResponse r)), w1)).
Proof.
  intros Ea E H3.
  assert (Esa : self_account w = (inr a, w))
    by (unfold self_account; now rewrite Ea).
  unfold get_registration.
  rewrite (bind_inr _ _ _ _ _ Esa), (bind_inr _ _ _ _ _ E),
    (starts_with_2_three_digits _ H3). split.
  - intros [Hlo Hhi].
    replace (200 <=? status_code r) with true by (symmetry; apply Z.leb_le; lia).
    replace (status_code r <? 300) with true by (symmetry; apply Z.ltb_lt; lia).
    simpl. unfold _json. now destruct (json r).
  - intros N. destruct (Z.leb_spec 200 (status_code r)); [|reflexivity].
    destruct (Z.ltb_spec (status_code r) 300); [lia|reflexivity].
Qed.

(** X12: once the server has answered the signed request of
    [new_authorization]: on status 201 the call returns the JSON of the body
    with the [Location] header, or raises the [AcmeError] of an invalid body
    when the body is not JSON; every other status, 200 included, raises
    [AcmeError] with the response. *)
Theorem new_authorization_outcomes domain w r w1 :
  post (VStr "/acme/new-authz")
       {[ "resource" := VStr "new-authz";
          "identifier" := VDict {[ "type" := VStr "dns";
                                   "value" := VStr domain ]} ]} None w
    = (inr r, w1) ->
  (status_code r = 201 ->
     new_authorization domain w
       = (match json r with
          | Some j => inr {| authz_contents := j;
                             authz_uri := headers r !! "Location" |}
          | None => inl (AcmeError ErrInvalidJSON)
          end, w1)) /\
  (status_code r <> 201 ->
     new_authorization domain w = (inl (AcmeError (ErrResponse r)), w1)).
Proof.
  intros E. unfold new_authorization. rewrite (bind_inr _ _ _ _ _ E). split.
  - intros ->. simpl. unfold _json. now destruct (json r).
  - intros N. now destruct (Z.eqb_spec (status_code r) 201).
Qed.

(** X13: [get_authorization] needs no account and signs nothing: it makes
    at most one exchange, a GET without body; and once that is answered it
    returns the JSON of the body whatever the status, or raises [AcmeError]
    when the body is not JSON. *)
Theorem get_authorization_is_one_plain_get uri w :
  (exists l, log (snd (get_authorization uri w)) = log w ++ l /\
             (length l <= 1)%nat /\
             Forall (fun x => method (fst x) = GET /\ data (fst x) = None) l) /\
  (forall r w1, get (VStr uri) None w = (inr r, w1) ->
     get_authorization uri w
       = (match json r with
          | Some j => inr j
          | None => inl (AcmeError ErrWrapped)
          end, w1)).
Proof.
  split.
  - unfold get_authorization, get, bind at 1 2 3, get_self, lift.
    destruct (path (self w) (VStr uri)) as [e|t].
    { exists []. simpl. split; [now rewrite app_nil_r|]. split; [lia|constructor]. }
    match goal with |- context [send ?rq w] =>
      pose proof (send_log rq w) as L; destruct (send rq w) as [[e|r] w1] end;
      simpl in L.
    + eexists. split; [exact L|]. split; [simpl; lia|]. now repeat constructor.
    + eexists. split; [destruct (json r); exact L|]. split; [simpl; lia|].
      now repeat constructor.
  - intros r w1 E. unfold get_authorization. rewrite (bind_inr _ _ _ _ _ E).
    now destruct (json r).
Qed.

(** *** Round trips *)

Lemma Acme_get_nonce_answered w n w1 :
  Acme_get_nonce w = (inr n, w1) ->
  exists rq0 r0, method rq0 = GET /\ log w1 = log w ++ [(rq0, inr r0)] /\
                 n = str_or_none (headers r0 !! "Replay-Nonce").
Proof.
  unfold Acme_get_nonce, bind.
  destruct (get (VStr "/directory") None w) as [[e|r0] w'] eqn:E; [discriminate|].
  intros [= <- <-]. destruct (get_answered _ _ _ _ _ E) as (rq0 & Hm & L).
  now exists rq0, r0.
Qed.

Lemma url_from_directory_answered what w u w0 :
  url_from_directory what w = (inr u, w0) ->
  exists rq r, method rq = GET /\ log w0 = log w ++ [(rq, inr r)].
Proof.
  unfold url_from_directory, bind at 1.
  destruct (AcmeV2_get_directory w) as [[e|r] w'] eqn:E; [discriminate|].
  assert (L : exists rq, method rq = GET /\ log w' = log w ++ [(rq, inr r)]).
  { unfold AcmeV2_get_directory, bind at 1, get_self in E.
    now apply get_answered in E. }
  destruct L as (rq & Hm & L). intros E'.
  assert (w0 = w') as ->.
  { destruct (status_code r =? 200); [|now injection E'].
    unfold response_json, bind in E'. destruct (json r) as [j|]; [|discriminate].
    simpl in E'. unfold getitem in E'.
    destruct j; try discriminate. destruct (d !! what); [|discriminate].
    now injection E'. }
  now exists rq, r.
Qed.

Lemma AcmeV2_get_nonce_answered w n w1 :
  AcmeV2_get_nonce w = (inr n, w1) ->
  exists rq0 r0 rq1 r1,
    method rq0 = GET /\ method rq1 = HEAD /\
    log w1 = log w ++ [(rq0, inr r0); (rq1, inr r1)] /\
    n = str_or_none (headers r1 !! "Replay-Nonce").
Proof.
  unfold AcmeV2_get_nonce, bind at 1.
  destruct (url_from_directory "newNonce" w) as [[e|u] w0] eqn:Eu; [discriminate|].
  unfold bind.
  destruct (head u _ w0) as [[e|r1] w'] eqn:E; [discriminate|].
  intros [= <- <-].
  destruct (url_from_directory_answered _ _ _ _ Eu) as (rq0 & r0 & Hm0 & L0).
  destruct (head_answered _ _ _ _ _ E) as (rq1 & Hm1 & L1).
  exists rq0, r0, rq1, r1. repeat split; try assumption.
  now rewrite L1, L0, <- app_assoc.
Qed.

(** X14: a signed request that is answered costs two exchanges with a v1
    server, the nonce fetch by GET and the POST, and three with a v2 server,
    the directory by GET, the nonce by HEAD and the POST; in both the POST
    carries the nonce of the exchange just before it. *)
Theorem signed_request_round_trips p body hdrs w r w1 :
  (Acme_post p body hdrs w = (inr r, w1) ->
     exists rq0 r0 rq,
       log w1 = log w ++ [(rq0, inr r0); (rq, inr r)] /\
       method rq0 = GET /\ method rq = POST /\
       nonce_of rq = Some (str_or_none (headers r0 !! "Replay-Nonce"))) /\
  (AcmeV2_post p body hdrs w = (inr r, w1) ->
     exists rq0 r0 rq1 r1 rq,
       log w1 = log w ++ [(rq0, inr r0); (rq1, inr r1); (rq, inr r)] /\
       method rq0 = GET /\ method rq1 = HEAD /\ method rq = POST /\
       nonce_of rq = Some (str_or_none (headers r1 !! "Replay-Nonce"))).
Proof.
  split; intros E.
  - destruct (Acme_post_account _ _ _ _ _ _ E) as [_ [a Ea]].
    destruct (Acme_get_nonce w) as [[e|n] w'] eqn:En.
    { unfold Acme_post, Acme_get_headers, bind, self_account in E.
      rewrite Ea, En in E. discriminate E. }
    pose proof (Acme_get_nonce_same_objects w) as [Es _]. rewrite En in Es. simpl in Es.
    destruct (path (self w) p) as [e|t] eqn:Ep.
    { unfold Acme_post, Acme_get_headers, bind, self_account, get_self, lift, ret in E.
      rewrite Ea, En in E. cbv beta iota in E. rewrite Es, Ea in E.
      cbv beta iota in E. rewrite Es, Ep in E. discriminate E. }
    rewrite (Acme_post_after_nonce _ _ _ _ _ _ _ _ En Ea Ep) in E.
    destruct (Acme_get_nonce_answered _ _ _ En) as (rq0 & r0 & Hm0 & L0 & ->).
    match type of E with send ?rq _ = _ =>
      pose proof (send_log rq w') as L; rewrite E in L; simpl in L;
      exists rq0, r0, rq end.
    split; [now rewrite L, L0, <- app_assoc|]. repeat split; try assumption.
    unfold nonce_of, protected_of. simpl. apply lookup_insert_eq.
  - destruct (AcmeV2_post_account _ _ _ _ _ _ E) as [_ [a Ea]].
    destruct (path (self w) p) as [e|t] eqn:Ep.
    { unfold AcmeV2_post, bind, get_self, lift in E. rewrite Ep in E. discriminate E. }
    destruct (AcmeV2_get_nonce w) as [[e|n] w'] eqn:En.
    { unfold AcmeV2_post, AcmeV2_get_headers, bind, get_self, lift, self_account in E.
      rewrite Ep, Ea, En in E. discriminate E. }
    rewrite (AcmeV2_post_after_nonce _ _ _ _ _ _ _ _ En Ea Ep) in E.
    destruct (AcmeV2_get_nonce_answered _ _ _ En)
      as (rq0 & r0 & rq1 & r1 & Hm0 & Hm1 & L0 & ->).
    match type of E with send ?rq _ = _ =>
      pose proof (send_log rq w') as L; rewrite E in L; simpl in L;
      exists rq0, r0, rq1, r1, rq end.
    split; [now rewrite L, L0, <- app_assoc|]. repeat split; try assumption.
    unfold nonce_of, protected_of. simpl.
    rewrite lookup_insert_ne by discriminate. apply lookup_insert_eq.
Qed.

(** *** The dictionaries of the caller *)

Lemma set_account_uri_same_heap u : keeps same_heap (set_account_uri u).
Proof. intros w. unfold set_account_uri. now destruct (account (self w)). Qed.

Lemma send_same_heap rq : keeps same_heap (send rq).
Proof. intros w. apply send_same_objects. Qed.

(** X15: no call changes a dictionary of the caller other than the one
    handed to [update_registration]: whatever the call, a dictionary at
    another place holds after it what it held before. *)
Theorem other_dictionaries_untouched op w l d :
  heap w !! l = Some d ->
  op <> UpdateRegistration (Some l) ->
  heap (snd (perform op w)) !! l = Some d.
Proof.
  intros Hl Hop.
  assert (P1 : forall p body hdrs, keeps same_heap (Acme_post p body hdrs)).
  { intros. apply keeps_Acme_post_of_send; try apply _; intros; apply send_same_heap. }
  assert (P2 : forall p body hdrs, keeps same_heap (AcmeV2_post p body hdrs)).
  { intros. apply keeps_AcmeV2_post_of_send; try apply _; intros; apply send_same_heap. }
  assert (Q : forall rq, method rq <> POST -> keeps same_heap (send rq)).
  { intros rq _. apply send_same_heap. }
  pose proof set_account_uri_same_heap as U.
  assert (K : forall X (m : M X), keeps same_heap m ->
              heap (snd ((m;;; ret tt) w)) = heap w).
  { intros X m Hm. pose proof (Hm w) as Eh. unfold bind.
    now destruct (m w) as [[e|x] w1]. }
  assert (F : forall l', l' = fresh (dom (heap w)) -> l' <> l).
  { intros l' -> El. apply (is_fresh (dom (heap w))). rewrite El.
    apply elem_of_dom. now rewrite Hl. }
  destruct op as [email| |params|domain|uri _type ka|uri|csr|cert];
    unfold perform.
  3:{ assert (E : heap (snd (update_registration params w)) !! l = Some d).
      { unfold update_registration.
        set (w1 := {| self := self w; heap := <[fresh (dom (heap w)) := ∅]> (heap w);
                      net := net w; log := log w |}).
        assert (Ealloc : alloc ∅ w = (inr (fresh (dom (heap w))), w1)) by reflexivity.
        assert (Hfresh : forall (m : M positive),
                  m w = (inr (fresh (dom (heap w))), w1) ->
                  heap (snd ((x <- m;;
                              setitem x "resource" (VStr "reg");;;
                              a <- self_account;;
                              body <- deref x;;
                              response <- post (str_or_none (uri a)) body None;;
                              if starts_with_2 (status_code response) then ret true
                              else raise (AcmeError (ErrResponse response))) w))
                    !! l = Some d).
        { intros m Em. rewrite (bind_inr _ _ _ _ _ Em).
          pose proof (update_registration_writes (fresh (dom (heap w))) w1) as W.
          cbv zeta in W. rewrite W.
          rewrite lookup_insert_ne by now apply F.
          unfold w1. simpl. rewrite lookup_insert_ne by now apply F. exact Hl. }
        destruct params as [l2|]; [|now apply Hfresh].
        destruct (dict_truthy (default ∅ (heap w !! l2))) eqn:Et.
        - assert (Em : (d0 <- deref l2;; if dict_truthy d0 then ret l2 else alloc ∅) w
                       = (inr l2, w)).
          { unfold bind, deref. simpl. now rewrite Et. }
          rewrite (bind_inr _ _ _ _ _ Em).
          pose proof (update_registration_writes l2 w) as W. cbv zeta in W.
          rewrite W. rewrite lookup_insert_ne; [exact Hl|]. congruence.
        - apply Hfresh. unfold bind, deref. simpl. now rewrite Et. }
      unfold bind. now destruct (update_registration params w) as [[e|b] w']. }
  all: rewrite K; [exact Hl|].
  - apply keeps_register; first [apply _ | assumption].
  - apply keeps_get_registration; first [apply _ | assumption].
  - apply keeps_new_authorization; first [apply _ | assumption].
  - apply keeps_validate_authorization; first [apply _ | assumption].
  - apply keeps_get_authorization; first [apply _ | assumption].
  - apply keeps_issue_certificate; first [apply _ | assumption].
  - apply keeps_revoke_certificate; first [apply _ | assumption].
Qed.

(** *** Changing the account *)

(** X17: after [set_account] has put an account in place of whatever was
    there, the property [key] reads the key of that account, and every
    request signed in any later sequence of calls is signed with that key;
    [set_account] itself talks to no server. *)
Theorem set_account_changes_the_signer a ops w :
  let w' := snd (set_account (Some a) w) in
  fst (Acme_key w') = inr (Some (key a)) /\
  log w' = log w /\
  exists l, log (run ops w') = log w ++ l /\
    Forall (fun x => match data (fst x) with
                     | Some (sign_request k _ _ _) => k = key a
                     | Some (sign_request_v2 k _ _) => k = key a
                     | None => True
                     end) l.
Proof.
  intros w'. split; [reflexivity|]. split; [reflexivity|].
  destruct (run_requests ops w') as (l & L & F). exists l. split; [exact L|].
  eapply Forall_impl; [exact F|]. intros x Hx. simpl in Hx.
  destruct Hx; simpl; try easy; simpl in *; congruence.
Qed.

(** *** The issuer chain *)

(** X16: when the server has answered the issuance with status 201 and a
    link of relation [up], and the fetch of the chain fails in the
    transport, [issue_certificate] raises that failure: the certificate of
    the 201 answer is not returned. *)
Theorem issue_certificate_chain_failure csr w r w1 up e w2 :
  post (VStr "/acme/new-cert") {[ "resource" := VStr "new-cert"; "csr" := csr ]}
       (Some {[ "Accept" := VStr "application/pkix-cert" ]}) w = (inr r, w1) ->
  status_code r = 201 ->
  links r !! "up" = Some up ->
  send (chain_request (link_url up)) w1 = (inl e, w2) ->
  issue_certificate csr w = (inl e, w2).
Proof.
  intros E E201 Hup Es. unfold issue_certificate.
  rewrite (bind_inr _ _ _ _ _ E), E201, Hup. simpl.
  unfold requests_get. fold (chain_request (link_url up)).
  now rewrite (bind_inl _ _ _ _ _ (bind_inl _ _ _ _ _ Es)).
Qed.

End Edges.

(** ** These statements on the sample environment *)

Section MoreExamples.
Import Sample.

(** X5, on a name the directory of the sample server does not list. *)
Lemma url_from_directory_failures_witness :
  fst (url_from_directory "newOrder" (world AcmeV2 None [inr directory_v2]))
    = inl (KeyError "newOrder").
Proof.
  set (w0 := world AcmeV2 None [inr directory_v2]).
  assert (E : AcmeV2_get_directory w0
              = (inr directory_v2, snd (AcmeV2_get_directory w0)))
    by (vm_compute; reflexivity).
  destruct (url_from_directory_failures "newOrder" w0 _ _ E) as (_ & _ & _ & Hk).
  rewrite (Hk eq_refl _ eq_refl eq_refl). reflexivity.
Defined.

(** X6, on the directory of the sample server. *)
Lemma terms_from_directory_cases_witness :
  fst (terms_from_directory (world AcmeV2 None [inr directory_v2]))
    = inr (VStr "https://ca.example/terms").
Proof.
  set (w0 := world AcmeV2 None [inr directory_v2]).
  assert (E : AcmeV2_get_directory w0
              = (inr directory_v2, snd (AcmeV2_get_directory w0)))
    by (vm_compute; reflexivity).
  destruct (terms_from_directory_cases w0 _ _ E) as [_ Hd].
  rewrite (Hd eq_refl _ eq_refl). reflexivity.
Defined.

(** X7, on a server that answers 503 for its directory. *)
Lemma v2_register_without_directory_witness :
  fst (AcmeV2_register "alice@example.org"
         (world AcmeV2 (Some alice) [inr service_unavailable]))
    = inl AttributeError.
Proof.
  set (w0 := world AcmeV2 (Some alice) [inr service_unavailable]).
  assert (E : AcmeV2_get_directory w0
              = (inr service_unavailable, snd (AcmeV2_get_directory w0)))
    by (vm_compute; reflexivity).
  assert (N : status_code service_unavailable <> 200) by discriminate.
  destruct (v2_register_without_directory "alice@example.org" w0 _ _ E N) as [R _].
  rewrite R. reflexivity.
Defined.

(** X8, on a revocation asked of a client without account. *)
Lemma v1_without_account_sends_nothing_witness :
  let w := world Acme None [inr (directory_v1 "n1"); inr ok_response] in
  fst (perform (RevokeCertificate (VStr "(certificate)")) w) = inl AttributeError /\
  log (snd (perform (RevokeCertificate (VStr "(certificate)")) w)) = [].
Proof.
  intros w.
  destruct (v1_without_account_sends_nothing
              (RevokeCertificate (VStr "(certificate)")) w eq_refl eq_refl)
    as (R & L & _).
  - discriminate.
  - split; [exact R | exact L].
Defined.

(** X9, on the account before its registration. *)
Lemma get_registration_without_uri_witness :
  let w := world Acme (Some alice) [inr (directory_v1 "n1"); inr ok_response] in
  fst (get_registration w) = inl AttributeError /\
  List.length (log (snd (get_registration w))) = 1%nat.
Proof.
  intros w.
  assert (En : Acme_get_nonce w = (inr (VStr "n1"), snd (Acme_get_nonce w)))
    by (vm_compute; reflexivity).
  destruct (get_registration_without_uri w alice eq_refl eq_refl) as [H1 _].
  rewrite (H1 eq_refl _ _ En). split; [reflexivity|]. vm_compute. reflexivity.
Defined.

(** X10, on an answer with status 202. *)
Lemma validate_authorization_accepts_2xx_witness :
  fst (validate_authorization "https://ca.example/acme/challenge/7" "http-01"
         "(token).(thumbprint)"
         (world Acme (Some alice_registered)
            [inr (directory_v1 "n1"); inr accepted_response])) = inr true.
Proof.
  set (w0 := world Acme (Some alice_registered)
               [inr (directory_v1 "n1"); inr accepted_response]).
  assert (E : post (VStr "https://ca.example/acme/challenge/7")
                {[ "resource" := VStr "challenge"; "type" := VStr "http-01";
                   "keyAuthorization" := VStr "(token).(thumbprint)" ]} None w0
              = (inr accepted_response,
                 snd (post (VStr "https://ca.example/acme/challenge/7")
                        {[ "resource" := VStr "challenge"; "type" := VStr "http-01";
                           "keyAuthorization" := VStr "(token).(thumbprint)" ]}
                        None w0)))
    by (vm_compute; reflexivity).
  assert (H3 : three_digits (status_code accepted_response))
    by (unfold three_digits; simpl; lia).
  destruct (validate_authorization_accepts_2xx _ _ _ w0 _ _ E H3) as [Hok _].
  rewrite Hok; [reflexivity|]. simpl. lia.
Defined.

(** X11, on an answer with status 200 and a JSON body. *)
Lemma get_registration_outcomes_witness :
  fst (get_registration
         (world Acme (Some alice_registered)
            [inr (directory_v1 "n1"); inr no_nonce])) = inr (VDict ∅).
Proof.
  set (w0 := world Acme (Some alice_registered)
               [inr (directory_v1 "n1"); inr no_nonce]).
  assert (E : post (str_or_none (uri alice_registered))
                {[ "resource" := VStr "reg" ]} None w0
              = (inr no_nonce,
                 snd (post (str_or_none (uri alice_registered))
                        {[ "resource" := VStr "reg" ]} None w0)))
    by (vm_compute; reflexivity).
  assert (H3 : three_digits (status_code no_nonce))
    by (unfold three_digits; simpl; lia).
  destruct (get_registration_outcomes w0 alice_registered _ _ eq_refl E H3)
    as [Hok _].
  rewrite Hok; [reflexivity|]. simpl. lia.
Defined.

(** X12, on an answer with status 200, which [new_authorization] takes for
    a failure. *)
Lemma new_authorization_outcomes_witness :
  fst (new_authorization "example.org"
         (world Acme (Some alice_registered)
            [inr (directory_v1 "n1"); inr no_nonce]))
    = inl (AcmeError (ErrResponse no_nonce)).
Proof.
  set (w0 := world Acme (Some alice_registered)
               [inr (directory_v1 "n1"); inr no_nonce]).
  assert (E : post (VStr "/acme/new-authz")
                {[ "resource" := VStr "new-authz";
                   "identifier" := VDict {[ "type" := VStr "dns";
                                            "value" := VStr "example.org" ]} ]}
                None w0
              = (inr no_nonce,
                 snd (post (VStr "/acme/new-authz")
                        {[ "resource" := VStr "new-authz";
                           "identifier" := VDict {[ "type" := VStr "dns";
                                                    "value" := VStr "example.org" ]} ]}
                        None w0)))
    by (vm_compute; reflexivity).
  destruct (new_authorization_outcomes "example.org" w0 _ _ E) as [_ Hno].
  rewrite Hno; [reflexivity | discriminate].
Defined.

(** X14, on a revocation request to the sample v1 server. *)
Lemma signed_request_round_trips_witness :
  let w := world Acme (Some alice_registered)
             [inr (directory_v1 "n1"); inr ok_response] in
  List.length (log (snd (Acme_post (VStr "/acme/revoke-cert") ∅ None w))) = 2%nat.
Proof.
  intros w.
  assert (E : Acme_post (VStr "/acme/revoke-cert") ∅ None w
              = (inr ok_response,
                 snd (Acme_post (VStr "/acme/revoke-cert") ∅ None w)))
    by (vm_compute; reflexivity).
  destruct (proj1 (signed_request_round_trips _ _ _ w _ _) E)
    as (rq0 & r0 & rq & L & _).
  rewrite L. reflexivity.
Defined.

(** X15, on a registration made while the caller holds a dictionary. *)
Lemma other_dictionaries_untouched_witness :
  let d : dict := {[ "contact" := VList [VStr "mailto:alice@example.org"] ]} in
  let w := world_with_params d [inr (directory_v1 "n1"); inr ok_response] in
  heap (snd (perform (UpdateRegistration None) w)) !! 1%positive = Some d.
Proof.
  intros d w.
  apply (other_dictionaries_untouched (UpdateRegistration None) w 1%positive d eq_refl).
  discriminate.
Defined.

(** X16, on a server that issues the certificate and then drops the
    connection. *)
Lemma issue_certificate_chain_failure_witness :
  fst (issue_certificate (VStr "(csr)")
         (world Acme (Some alice_registered)
            [inr (directory_v1 "n1"); inr issued_response;
             inl (RequestException "timed out")]))
    = inl (RequestException "timed out").
Proof.
  set (w0 := world Acme (Some alice_registered)
               [inr (directory_v1 "n1"); inr issued_response;
                inl (RequestException "timed out")]).
  assert (E : post (VStr "/acme/new-cert")
                {[ "resource" := VStr "new-cert"; "csr" := VStr "(csr)" ]}
                (Some {[ "Accept" := VStr "application/pkix-cert" ]}) w0
              = (inr issued_response,
                 snd (post (VStr "/acme/new-cert")
                        {[ "resource" := VStr "new-cert"; "csr" := VStr "(csr)" ]}
                        (Some {[ "Accept" := VStr "application/pkix-cert" ]}) w0)))
    by (vm_compute; reflexivity).
  set (w1 := snd (post (VStr "/acme/new-cert")
                    {[ "resource" := VStr "new-cert"; "csr" := VStr "(csr)" ]}
                    (Some {[ "Accept" := VStr "application/pkix-cert" ]}) w0)) in *.
  assert (Es : send (chain_request "https://ca/issuer") w1
               = (inl (RequestException "timed out"),
                  snd (send (chain_request "https://ca/issuer") w1)))
    by (vm_compute; reflexivity).
  rewrite (issue_certificate_chain_failure (VStr "(csr)") w0 _ _
             {| link_url := "https://ca/issuer" |} _ _ E eq_refl eq_refl Es).
  reflexivity.
Defined.

End MoreExamples.
